(** * SICFOR certificates module: a shallow embedding of
      [frontend/grupo_i/certificaciones.js] and its specification.

    The JavaScript module keeps a history of certificates in the browser's
    [localStorage], draws a certificate on a 2D canvas and offers search,
    export and deletion over the history.  The embedding follows the source
    function by function:

    - JavaScript strings are Rocq strings; [split], [trim], [slice] and the
      case mappings are written out for the ASCII range (characters outside
      it are carried through unchanged);
    - JavaScript numbers are exact rationals ([Q]); every number the module
      computes with is a pixel quantity or a text width;
    - the browser is explicit state: the [World] holds [localStorage], the
      console, and the oracles behind [Math.random] and [new Date];
      exceptions are an outcome of a computation in the [JS] monad, so that
      [try]/[catch] is a combinator;
    - what the browser implements and the module only calls ([JSON.parse],
      [JSON.stringify], [measureText], [toLocaleDateString]) is a
      [Platform], with the part of its contract a proof needs stated as a
      separate class of laws; a reference platform instantiates both;
    - effects that only touch the DOM tree (status messages, the history
      list, the enabled state of buttons) lie outside the embedding: values
      read from the DOM are arguments of the handlers. *)

From Stdlib Require Import String Ascii List ZArith QArith Qround Lia Lqa Bool.
From stdpp Require Import gmap strings list fin_maps.
Import ListNotations.
Local Open Scope string_scope.
Set Warnings "-register-all".

(** ** JavaScript strings *)

Module JSString.

Definition code (c : ascii) : nat := nat_of_ascii c.

Definition in_range (lo hi : nat) (c : ascii) : bool :=
  (lo <=? code c)%nat && (code c <=? hi)%nat.

(** White space as [String.prototype.trim] sees it, within ASCII:
    TAB, LF, VT, FF, CR and SPACE. *)
Definition is_whitespace (c : ascii) : bool :=
  in_range 9 13 c || (code c =? 32)%nat.

Definition is_lower (c : ascii) : bool := in_range 97 122 c.
Definition is_upper (c : ascii) : bool := in_range 65 90 c.
Definition is_digit (c : ascii) : bool := in_range 48 57 c.

Definition upper_char (c : ascii) : ascii :=
  if is_lower c then ascii_of_nat (code c - 32) else c.

Definition lower_char (c : ascii) : ascii :=
  if is_upper c then ascii_of_nat (code c + 32) else c.

Fixpoint map_chars (f : ascii -> ascii) (s : string) : string :=
  match s with
  | EmptyString => EmptyString
  | String c s' => String (f c) (map_chars f s')
  end.

Fixpoint all_chars (p : ascii -> bool) (s : string) : bool :=
  match s with
  | EmptyString => true
  | String c s' => p c && all_chars p s'
  end.

(** [s.toUpperCase()] and [s.toLowerCase()] *)
Definition toUpperCase (s : string) : string := map_chars upper_char s.
Definition toLowerCase (s : string) : string := map_chars lower_char s.

(** [s.slice(from, to)] for [0 <= from <= to]. *)
Definition slice (s : string) (from to : nat) : string :=
  substring from (to - from) s.

Fixpoint trimStart (s : string) : string :=
  match s with
  | EmptyString => EmptyString
  | String c s' => if is_whitespace c then trimStart s' else s
  end.

Fixpoint trimEnd (s : string) : string :=
  match s with
  | EmptyString => EmptyString
  | String c s' =>
      match trimEnd s' with
      | EmptyString => if is_whitespace c then EmptyString else String c EmptyString
      | t => String c t
      end
  end.

(** [s.trim()] *)
Definition trim (s : string) : string := trimEnd (trimStart s).

(** [s.split(' ')]: the pieces between single spaces; never the empty
    array (the empty string splits into one empty piece). *)
Fixpoint split_space (s : string) : list string :=
  match s with
  | EmptyString => [EmptyString]
  | String c s' =>
      if (c =? " ")%char then EmptyString :: split_space s'
      else match split_space s' with
           | w :: ws => String c w :: ws
           | [] => [String c EmptyString]
           end
  end.

(** Truthiness of a string: only the empty string is falsy. *)
Definition truthy (s : string) : bool :=
  match s with EmptyString => false | _ => true end.

(** [a || b] on strings *)
Definition or_else (a b : string) : string := if truthy a then a else b.

(** Upper-case alphanumeric: [0-9A-Z]. *)
Definition is_upper_alnum (c : ascii) : bool := is_digit c || is_upper c.
(** Lower-case alphanumeric: [0-9a-z], the digits of base 36. *)
Definition is_lower_alnum (c : ascii) : bool := is_digit c || is_lower c.

End JSString.

(** ** Values and records *)

(** What [JSON.parse] can return. *)
Inductive json : Type :=
| JNull
| JBool (b : bool)
| JNumber (q : Q)
| JString (s : string)
| JArray (items : list json)
| JObject (members : list (string * json)).

(** The certificate record built by [makeCertificate]; every field is a
    string. *)
Record certificate : Type := mkCertificate {
  id : string;
  verificationCode : string;
  name : string;
  title : string;
  issuer : string;
  date : string;
  note : string;
  createdAt : string
}.

(** The object literal of [makeCertificate], properties in source order. *)
Definition json_of_certificate (c : certificate) : json :=
  JObject [ ("id", JString (id c));
            ("verificationCode", JString (verificationCode c));
            ("name", JString (name c));
            ("title", JString (title c));
            ("issuer", JString (issuer c));
            ("date", JString (date c));
            ("note", JString (note c));
            ("createdAt", JString (createdAt c)) ].

(** An array of certificates as a JavaScript value. *)
Definition json_of_list (l : list certificate) : json :=
  JArray (map json_of_certificate l).

(** The argument of [makeCertificate]. *)
Record payload : Type := mkPayload {
  p_name : string;
  p_title : string;
  p_issuer : string;
  p_date : string;
  p_note : string
}.

(** ** The browser as explicit state *)

Inductive exn : Type :=
| SecurityError        (* storage access denied *)
| QuotaExceededError   (* [setItem] beyond the quota *)
| SyntaxError.         (* [JSON.parse] on text that is not JSON *)

(** [localStorage]: a key-value store of strings with a quota on the
    total size of keys and values; access may be denied altogether. *)
Record LocalStorage : Type := mkLocalStorage {
  ls_items : gmap string string;
  ls_quota : nat;
  ls_denied : bool
}.

Definition ls_used (m : gmap string string) : nat :=
  map_fold (fun k v acc => String.length k + String.length v + acc) 0 m.

(** One line of [console.error]: the message and the exception logged. *)
Definition log_entry : Type := string * exn.

(** A result of [Math.random().toString(36)]: the base-36 digits printed
    after ["0."], none for the number 0 (printed ["0"]).  Digits are taken
    modulo 36. *)
Definition draw : Type := list nat.

Record World : Type := mkWorld {
  localStorage : LocalStorage;
  console : list log_entry;
  random_source : nat -> draw;   (* the n-th call of [Math.random] *)
  random_calls : nat;
  clock : nat -> string;         (* the n-th [new Date().toISOString()] *)
  clock_reads : nat
}.

Definition set_localStorage (ls : LocalStorage) (w : World) : World :=
  mkWorld ls (console w) (random_source w) (random_calls w) (clock w) (clock_reads w).

Definition set_console (c : list log_entry) (w : World) : World :=
  mkWorld (localStorage w) c (random_source w) (random_calls w) (clock w) (clock_reads w).

Definition set_random_calls (n : nat) (w : World) : World :=
  mkWorld (localStorage w) (console w) (random_source w) n (clock w) (clock_reads w).

Definition set_clock_reads (n : nat) (w : World) : World :=
  mkWorld (localStorage w) (console w) (random_source w) (random_calls w) (clock w) n.

(** ** Computations that may throw *)

Inductive outcome (A : Type) : Type :=
| Normal (a : A)
| Thrown (e : exn).
Arguments Normal {A} a.
Arguments Thrown {A} e.

Definition JS (A : Type) : Type := World -> outcome A * World.

Definition ret {A : Type} (a : A) : JS A := fun w => (Normal a, w).

Definition bind {A B : Type} (m : JS A) (k : A -> JS B) : JS B :=
  fun w =>
    match m w with
    | (Normal a, w') => k a w'
    | (Thrown e, w') => (Thrown e, w')
    end.

Definition throw {A : Type} (e : exn) : JS A := fun w => (Thrown e, w).

(** [try { body } catch (e) { handler e }] *)
Definition try_catch {A : Type} (body : JS A) (handler : exn -> JS A) : JS A :=
  fun w =>
    match body w with
    | (Normal a, w') => (Normal a, w')
    | (Thrown e, w') => handler e w'
    end.

Declare Scope js_scope.
Delimit Scope js_scope with js.
Notation "'let*' x ':=' m 'in' k" := (bind m (fun x => k))
  (at level 10, x name, m at level 100, k at level 200) : js_scope.
Notation "'run' m 'in' k" := (bind m (fun _ => k))
  (at level 10, m at level 100, k at level 200) : js_scope.

(** The value a computation returned, its final world, and whether it
    returned at all. *)
Definition result {A : Type} (r : outcome A * World) : outcome A := fst r.
Definition world_after {A : Type} (r : outcome A * World) : World := snd r.
Definition returns {A : Type} (r : outcome A * World) : bool :=
  match fst r with Normal _ => true | Thrown _ => false end.

(** ** Browser primitives *)

(** [localStorage.getItem(k)]: [None] is JavaScript's [null]. *)
Definition localStorage_getItem (k : string) : JS (option string) :=
  fun w =>
    if ls_denied (localStorage w) then (Thrown SecurityError, w)
    else (Normal (ls_items (localStorage w) !! k), w).

(** [localStorage.setItem(k, v)]: all or nothing. *)
Definition localStorage_setItem (k v : string) : JS unit :=
  fun w =>
    let ls := localStorage w in
    if ls_denied ls then (Thrown SecurityError, w)
    else if (ls_used (<[k := v]> (ls_items ls)) <=? ls_quota ls)%nat
         then (Normal tt,
               set_localStorage
                 (mkLocalStorage (<[k := v]> (ls_items ls)) (ls_quota ls) (ls_denied ls)) w)
         else (Thrown QuotaExceededError, w).

(** [localStorage.removeItem(k)] *)
Definition localStorage_removeItem (k : string) : JS unit :=
  fun w =>
    let ls := localStorage w in
    if ls_denied ls then (Thrown SecurityError, w)
    else (Normal tt,
          set_localStorage
            (mkLocalStorage (delete k (ls_items ls)) (ls_quota ls) (ls_denied ls)) w).

(** [console.error(msg, e)] *)
Definition console_error (msg : string) (e : exn) : JS unit :=
  fun w => (Normal tt, set_console (console w ++ [(msg, e)]) w).

Definition digit_char (d : nat) : ascii :=
  match get (d mod 36) "0123456789abcdefghijklmnopqrstuvwxyz" with
  | Some c => c
  | None => "0"%char
  end.

Fixpoint digits_string (ds : list nat) : string :=
  match ds with
  | [] => EmptyString
  | d :: ds' => String (digit_char d) (digits_string ds')
  end.

(** How a drawn number prints in base 36. *)
Definition toString36 (d : draw) : string :=
  match d with
  | [] => "0"
  | _ => "0." +:+ digits_string d
  end.

(** [Math.random()], consumed from the oracle. *)
Definition Math_random : JS draw :=
  fun w => (Normal (random_source w (random_calls w)),
            set_random_calls (S (random_calls w)) w).

(** [new Date().toISOString()], read from the clock. *)
Definition Date_now_toISOString : JS string :=
  fun w => (Normal (clock w (clock_reads w)),
            set_clock_reads (S (clock_reads w)) w).

(** A font as the canvas context holds it, e.g. ["18px Inter, Arial"]. *)
Definition css_font : Type := string.

(** What the module calls and the browser implements. *)
Class Platform : Type := {
  (** [JSON.parse(text)]; [None] when it throws [SyntaxError]. *)
  JSON_parse : string -> option json;
  (** [JSON.stringify(value)] *)
  JSON_stringify : json -> string;
  (** [ctx.measureText(text).width] under the context's font. *)
  measureText_width : css_font -> string -> Q;
  (** [new Date(iso).toLocaleDateString()] *)
  toLocaleDateString : string -> string
}.

(** ** The module: utilities, factory and storage helpers *)

Section Program.
Context {browser : Platform}.
Local Open Scope js_scope.

Definition STORAGE_KEY : string := "sicfor:certificates:v1".

(** [const uid = (len = 10) => Math.random().toString(36).slice(2, 2 + len)] *)
Definition uid (len : nat) : JS string :=
  let* r := Math_random in
  ret (JSString.slice (toString36 r) 2 (2 + len)).

(** [const nowISO = () => new Date().toISOString()] *)
Definition nowISO : JS string := Date_now_toISOString.

(** [formatDate(iso)] *)
Definition formatDate (iso : string) : string :=
  if negb (JSString.truthy iso) then EmptyString else toLocaleDateString iso.

(** [makeCertificate({ name, title, issuer, date, note })] *)
Definition makeCertificate (p : payload) : JS certificate :=
  let* id := uid 12 in
  let* code := uid 16 in
  let verificationCode := JSString.toUpperCase code in
  let* createdAt := nowISO in
  ret {| id := id;
         verificationCode := verificationCode;
         name := p_name p;
         title := p_title p;
         issuer := p_issuer p;
         date := p_date p;
         note := p_note p;
         createdAt := createdAt |}.

(** [JSON.parse(raw)] as a computation: it throws on text that is not
    JSON. *)
Definition JSON_parse_js (raw : string) : JS json :=
  match JSON_parse raw with
  | Some v => ret v
  | None => throw SyntaxError
  end.

(** [storage.load()] *)
Definition storage_load : JS json :=
  try_catch
    (let* item := localStorage_getItem STORAGE_KEY in
     let raw := match item with
                | Some s => JSString.or_else s "[]"
                | None => "[]"
                end in
     JSON_parse_js raw)
    (fun e =>
       run console_error "Storage read error" e in
       ret (JArray [])).

(** [storage.save(list)] *)
Definition storage_save (list : list certificate) : JS unit :=
  try_catch
    (localStorage_setItem STORAGE_KEY (JSON_stringify (json_of_list list)))
    (fun e => console_error "Storage write error" e).

(** [storage.clear()] *)
Definition storage_clear : JS unit :=
  localStorage_removeItem STORAGE_KEY.

End Program.

(** ** The 2D canvas *)

(** What [ctx.fillStyle] can hold: a CSS colour, or the gradient built by
    [createLinearGradient] and [addColorStop]. *)
Inductive fill_style : Type :=
| Color (css : string)
| LinearGradient (x0 y0 x1 y1 : Q) (stops : list (Q * string)).

(** A drawing command, with the part of the drawing state it is drawn
    under. *)
Inductive draw_op : Type :=
| FillRect (style : fill_style) (x y w h : Q)
| FillText (style : fill_style) (font : css_font) (align : string)
           (text : string) (x y : Q).

(** The part of the drawing state the module touches. *)
Record draw_state : Type := mkDrawState {
  fillStyle : fill_style;
  font : css_font;
  textAlign : string
}.

(** A 2D rendering context: the current drawing state, the stack of
    [save()], and the commands drawn so far, oldest first. *)
Record Context2D : Type := mkContext2D {
  state : draw_state;
  saved : list draw_state;
  drawn : list draw_op
}.

Record Canvas : Type := mkCanvas {
  width : Q;
  height : Q;
  context : Context2D
}.

Definition default_state : draw_state :=
  mkDrawState (Color "#000000") "10px sans-serif" "start".

(** Assigning [canvas.width] or [canvas.height] clears the bitmap and
    resets the context. *)
Definition reset_context : Context2D := mkContext2D default_state [] [].

Definition set_width (v : Q) (cv : Canvas) : Canvas :=
  mkCanvas v (height cv) reset_context.

Definition set_height (v : Q) (cv : Canvas) : Canvas :=
  mkCanvas (width cv) v reset_context.

Definition set_fillStyle (v : fill_style) (ctx : Context2D) : Context2D :=
  mkContext2D (mkDrawState v (font (state ctx)) (textAlign (state ctx)))
              (saved ctx) (drawn ctx).

Definition set_font (v : css_font) (ctx : Context2D) : Context2D :=
  mkContext2D (mkDrawState (fillStyle (state ctx)) v (textAlign (state ctx)))
              (saved ctx) (drawn ctx).

Definition set_textAlign (v : string) (ctx : Context2D) : Context2D :=
  mkContext2D (mkDrawState (fillStyle (state ctx)) (font (state ctx)) v)
              (saved ctx) (drawn ctx).

Definition emit (op : draw_op) (ctx : Context2D) : Context2D :=
  mkContext2D (state ctx) (saved ctx) (drawn ctx ++ [op]).

(** [ctx.fillRect(x, y, w, h)] *)
Definition fillRect (x y w h : Q) (ctx : Context2D) : Context2D :=
  emit (FillRect (fillStyle (state ctx)) x y w h) ctx.

(** [ctx.fillText(text, x, y)] *)
Definition fillText (text : string) (x y : Q) (ctx : Context2D) : Context2D :=
  emit (FillText (fillStyle (state ctx)) (font (state ctx)) (textAlign (state ctx))
                 text x y) ctx.

(** [ctx.save()] *)
Definition ctx_save (ctx : Context2D) : Context2D :=
  mkContext2D (state ctx) (state ctx :: saved ctx) (drawn ctx).

(** [ctx.restore()]: nothing happens on an empty stack. *)
Definition ctx_restore (ctx : Context2D) : Context2D :=
  match saved ctx with
  | [] => ctx
  | s :: rest => mkContext2D s rest (drawn ctx)
  end.

(** [a > b] on numbers *)
Definition Qgt_bool (a b : Q) : bool := negb (Qle_bool a b).

(** [Math.floor] *)
Definition Math_floor (q : Q) : Q := inject_Z (Qfloor q).

Section Renderer.
Context {browser : Platform}.
Local Open Scope Q_scope.

(** The body of the two nested loops of [drawMockQR] at cell [(i, j)]. *)
Definition drawMockQR_cell (x y step : Q) (i j : nat) (ctx : Context2D) : Context2D :=
  if (((i + j) mod 2) =? 0)%nat
  then fillRect (x + 12 + inject_Z (Z.of_nat i) * step)
                (y + 12 + inject_Z (Z.of_nat j) * step)
                (step - 2) (step - 2) ctx
  else ctx.

(** [for (let i = 0; i < 6; i++) for (let j = 0; j < 6; j++) ...] *)
Definition drawMockQR_pattern (x y step : Q) (ctx : Context2D) : Context2D :=
  fold_left
    (fun ctx i => fold_left (fun ctx j => drawMockQR_cell x y step i j ctx) (seq 0 6) ctx)
    (seq 0 6) ctx.

(** [drawMockQR(ctx, text, x, y, size)] *)
Definition drawMockQR (ctx : Context2D) (text : string) (x y size : Q) : Context2D :=
  let ctx := ctx_save ctx in
  let ctx := set_fillStyle (Color "#0b1220") ctx in
  let ctx := fillRect x y size size ctx in
  let ctx := set_fillStyle (Color "#fff") ctx in
  let ctx := fillRect (x + 12) (y + 12) (size - 24) (size - 24) ctx in
  let ctx := set_fillStyle (Color "#0b1220") ctx in
  let step := Math_floor ((size - 24) / 6) in
  let ctx := drawMockQR_pattern x y step ctx in
  ctx_restore ctx.

(** The [for] loop of [wrapText] over the words from index [n] on:
    the context, the current [line] and the current [y] are the loop's
    variables. *)
Fixpoint wrapText_loop (x maxWidth lineHeight : Q) (words : list string) (n : nat)
         (ctx : Context2D) (line : string) (y : Q) : Context2D * string * Q :=
  match words with
  | [] => (ctx, line, y)
  | word :: rest =>
      let testLine := (line +:+ word) +:+ " " in
      let metrics_width := measureText_width (font (state ctx)) testLine in
      if Qgt_bool metrics_width maxWidth && (0 <? n)%nat then
        let ctx := fillText (JSString.trim line) (x + maxWidth / 2) y ctx in
        wrapText_loop x maxWidth lineHeight rest (S n) ctx (word +:+ " ") (y + lineHeight)
      else
        wrapText_loop x maxWidth lineHeight rest (S n) ctx testLine y
  end.

(** The statement after the loop, on the loop's final variables:
    [if (line) ctx.fillText(line.trim(), x + maxWidth / 2, y)]. *)
Definition wrapText_finish (x maxWidth : Q) (r : Context2D * string * Q) : Context2D :=
  let '(ctx, line, y) := r in
  if JSString.truthy line
  then fillText (JSString.trim line) (x + maxWidth / 2) y ctx
  else ctx.

(** [wrapText(ctx, text, x, y, maxWidth, lineHeight)] *)
Definition wrapText (ctx : Context2D) (text : string) (x y maxWidth lineHeight : Q)
  : Context2D :=
  let ctx := set_textAlign "center" ctx in
  let words := JSString.split_space text in
  wrapText_finish x maxWidth (wrapText_loop x maxWidth lineHeight words 0 ctx EmptyString y).

(** [drawCertificateToCanvas(cert, canvas)] *)
Definition drawCertificateToCanvas (cert : certificate) (canvas : Canvas) : Canvas :=
  let canvas := set_width 1200 canvas in
  let W := width canvas in
  let canvas := set_height 675 canvas in
  let H := height canvas in
  let ctx := context canvas in
  (* Background *)
  let ctx := set_fillStyle (Color "#ffffff") ctx in
  let ctx := fillRect 0 0 W H ctx in
  (* Decorative header band *)
  let gradient := LinearGradient 0 0 W 0 [(0, "#2b46d8"); (1, "#3b82f6")] in
  let ctx := set_fillStyle gradient ctx in
  let ctx := fillRect 0 0 W 110 ctx in
  (* Title *)
  let ctx := set_fillStyle (Color "#06132a") ctx in
  let ctx := set_font "42px Inter, Arial" ctx in
  let ctx := set_textAlign "left" ctx in
  let ctx := fillText (title cert) 60 180 ctx in
  (* Issuer small text *)
  let ctx := set_font "16px Inter, Arial" ctx in
  let ctx := set_fillStyle (Color "#475569") ctx in
  let ctx := fillText ("Emitido por: " +:+ issuer cert) 60 210 ctx in
  (* Recipient block *)
  let ctx := set_textAlign "center" ctx in
  let ctx := set_fillStyle (Color "#0b1220") ctx in
  let ctx := set_font "20px Inter, Arial" ctx in
  let ctx := fillText "Otorgado a" (W / 2) 320 ctx in
  let ctx := set_font "48px Inter, Arial" ctx in
  let ctx := set_fillStyle (Color "#0b1220") ctx in
  let ctx := fillText (name cert) (W / 2) 380 ctx in
  (* Note / description *)
  let ctx := set_font "18px Inter, Arial" ctx in
  let ctx := set_fillStyle (Color "#334155") ctx in
  let ctx := wrapText ctx (note cert) (W / 2 - 440) 440 880 28 in
  (* Footer: date and verification code *)
  let ctx := set_textAlign "left" ctx in
  let ctx := set_font "16px Inter, Arial" ctx in
  let ctx := set_fillStyle (Color "#475569") ctx in
  let ctx := fillText ("Fecha: " +:+ formatDate (date cert)) 60 (H - 70) ctx in
  let ctx := set_textAlign "right" ctx in
  let ctx := fillText ("Código de verificación: " +:+ verificationCode cert)
                      (W - 60) (H - 70) ctx in
  (* Simple QR-like box (mock) *)
  let ctx := drawMockQR ctx (verificationCode cert) (W - 220) (H - 170) 150 in
  mkCanvas (width canvas) (height canvas) ctx.

End Renderer.

(** ** The page module *)

(** The values of the form's inputs when a handler runs. *)
Record form_values : Type := mkForm {
  inputName : string;
  inputTitle : string;
  inputIssuer : string;
  inputDate : string;
  inputNote : string
}.

(** The fields of a [CertificateModule] instance that carry data; [canvas]
    is [None] on a page without the preview canvas. *)
Record CertificateModule : Type := mkModule {
  certList : list certificate;
  currentPreview : option certificate;
  canvas : option Canvas
}.

(** What the search handler shows in [searchResult]. *)
Inductive search_result : Type :=
| EnterCode                          (* 'Ingrese un código.' *)
| ValidCertificate (found : certificate)
| CodeNotFound.                      (* 'No se encontró el código.' *)

Section Handlers.
Context {browser : Platform}.
Local Open Scope js_scope.

(** [_handleGenerateAndSave()]; an empty name is rejected with an alert
    and nothing changes. *)
Definition _handleGenerateAndSave (form : form_values) (this : CertificateModule)
  : JS CertificateModule :=
  let name := JSString.trim (inputName form) in
  let title := JSString.trim (inputTitle form) in
  let issuer := JSString.trim (inputIssuer form) in
  let* date := (if JSString.truthy (inputDate form) then ret (inputDate form)
                else let* now := Date_now_toISOString in
                     ret (JSString.slice now 0 10)) in
  let note := JSString.trim (inputNote form) in
  let payload := mkPayload name title issuer date note in
  if negb (JSString.truthy (p_name payload)) then ret this
  else
    let* cert := makeCertificate payload in
    (* Save to storage *)
    let certList := cert :: certList this in        (* unshift *)
    run storage_save certList in
    (* Render preview *)
    ret {| certList := certList;
           currentPreview := Some cert;
           canvas := option_map (drawCertificateToCanvas cert) (canvas this) |}.

(** The click handler of [btnSearch], on the text of [searchCode]. *)
Definition btnSearch_click (value : string) (this : CertificateModule) : search_result :=
  let q := JSString.toUpperCase (JSString.trim (JSString.or_else value EmptyString)) in
  if negb (JSString.truthy q) then EnterCode
  else
    match List.find (fun c => String.eqb (verificationCode c) q) (certList this) with
    | Some found => ValidCertificate found
    | None => CodeNotFound
    end.

(** The text the search handler writes. *)
Definition search_text (r : search_result) : string :=
  match r with
  | EnterCode => "Ingrese un código."
  | ValidCertificate found =>
      "Certificado válido — " +:+ name found +:+ " · " +:+ title found
        +:+ " · emitido: " +:+ formatDate (date found)
  | CodeNotFound => "No se encontró el código."
  end.

(** The click handler of a [btn-delete] button carrying [data-id];
    [confirmed] is the answer to the confirmation dialog. *)
Definition btnDelete_click (data_id : string) (confirmed : bool)
           (this : CertificateModule) : JS CertificateModule :=
  if negb confirmed then ret this
  else
    let certList := List.filter (fun c => negb (String.eqb (id c) data_id))
                                (certList this) in
    run storage_save certList in
    ret {| certList := certList;
           currentPreview := currentPreview this;
           canvas := canvas this |}.

End Handlers.

(** ** Further helpers and handlers of the module *)

(** The replacement table of [escapeHtml]: the entity of each of the five
    characters it looks for (ampersand, the two angle brackets, the double
    and the single quote), nothing for any other character. *)
Definition html_entity (c : ascii) : option string :=
  if (c =? "&")%char then Some "&amp;"
  else if (c =? "<")%char then Some "&lt;"
  else if (c =? ">")%char then Some "&gt;"
  else if (c =? "034")%char then Some "&quot;"
  else if (c =? "'")%char then Some "&#39;"
  else None.

(** [escapeHtml(str)]: every one of the five characters is replaced by
    its entity, the rest of the string is kept. *)
Fixpoint escapeHtml (str : string) : string :=
  match str with
  | EmptyString => EmptyString
  | String c rest =>
      match html_entity c with
      | Some entity => entity +:+ escapeHtml rest
      | None => String c (escapeHtml rest)
      end
  end.

(** The characters that open or close a tag or an attribute value. *)
Definition is_markup (c : ascii) : bool :=
  (c =? "<")%char || (c =? ">")%char || (c =? "034")%char || (c =? "'")%char.

(** The characters [escapeHtml] replaces. *)
Definition is_html_special (c : ascii) : bool :=
  match html_entity c with Some _ => true | None => false end.

(** The text an escaped string stands for: the five entities read back,
    everything else as it is. *)
Fixpoint unescapeHtml (s : string) : string :=
  match s with
  | EmptyString => EmptyString
  | String "&" (String "a" (String "m" (String "p" (String ";" rest)))) =>
      String "&" (unescapeHtml rest)
  | String "&" (String "l" (String "t" (String ";" rest))) =>
      String "<" (unescapeHtml rest)
  | String "&" (String "g" (String "t" (String ";" rest))) =>
      String ">" (unescapeHtml rest)
  | String "&" (String "q" (String "u" (String "o" (String "t" (String ";" rest))))) =>
      String "034" (unescapeHtml rest)
  | String "&" (String "#" (String "3" (String "9" (String ";" rest)))) =>
      String "'" (unescapeHtml rest)
  | String c rest => String c (unescapeHtml rest)
  end.

(** A canvas as [document.createElement('canvas')] makes it. *)
Definition new_canvas : Canvas := mkCanvas 300 150 reset_context.

Section MoreHandlers.
Context {browser : Platform}.
Local Open Scope js_scope.

(** [_renderPreviewFromForm()]: nothing happens on a page without the
    canvas; blank fields take their placeholders. *)
Definition _renderPreviewFromForm (form : form_values) (this : CertificateModule)
  : JS CertificateModule :=
  match canvas this with
  | None => ret this
  | Some cv =>
      let name := JSString.or_else (JSString.trim (inputName form))
                                   "Nombre del beneficiario" in
      let title := JSString.or_else (JSString.trim (inputTitle form)) "Certificado" in
      let issuer := JSString.or_else (JSString.trim (inputIssuer form)) "Centro" in
      let* date := (if JSString.truthy (inputDate form) then ret (inputDate form)
                    else let* now := Date_now_toISOString in
                         ret (JSString.slice now 0 10)) in
      let note := JSString.or_else (JSString.trim (inputNote form)) EmptyString in
      let payload := mkPayload name title issuer date note in
      let* temp := makeCertificate payload in
      (* Do not add to storage yet: this is a preview *)
      ret {| certList := certList this;
             currentPreview := Some temp;
             canvas := Some (drawCertificateToCanvas temp cv) |}
  end.

(** The click handler of a [btn-view] button carrying [data-id]: the
    canvas it draws for the new window, none when no record has the id. *)
Definition btnView_click (data_id : string) (this : CertificateModule) : option Canvas :=
  match List.find (fun c => String.eqb (id c) data_id) (certList this) with
  | None => None
  | Some cert =>
      let tmpCanvas := new_canvas in
      let tmpCanvas := set_width 1200 tmpCanvas in
      let tmpCanvas := set_height 675 tmpCanvas in
      Some (drawCertificateToCanvas cert tmpCanvas)
  end.

(** The click handler of [btnClearHistory]; [confirmed] is the answer to
    the confirmation dialog.  The list in memory is emptied before
    [storage.clear()] runs, so the module is part of the result also when
    that call throws. *)
Definition btnClearHistory_click (confirmed : bool) (this : CertificateModule)
           (w : World) : outcome unit * CertificateModule * World :=
  if negb confirmed then (Normal tt, this, w)
  else
    let this := {| certList := [];
                   currentPreview := currentPreview this;
                   canvas := canvas this |} in
    match storage_clear w with
    | (Normal _, w') => (Normal tt, this, w')
    | (Thrown e, w') => (Thrown e, this, w')
    end.

End MoreHandlers.

(** ** A reference platform

    A compact JSON codec (strings with their escapes, arrays, objects, the
    three literals, integers), a fixed-pitch font ten pixels wide per
    character and ISO dates printed as they are.  It runs the examples and
    shows that the laws assumed of a platform can be met. *)

Module RefJSON.

Abbreviation quote_char := ("034"%char).
Abbreviation backslash_char := ("\"%char).

Definition hex_char (n : nat) : ascii :=
  match get (n mod 16) "0123456789abcdef" with
  | Some c => c
  | None => "0"%char
  end.

Definition hex_value (c : ascii) : option nat :=
  let n := JSString.code c in
  if JSString.is_digit c then Some (n - 48)
  else if JSString.in_range 97 102 c then Some (n - 87)
  else if JSString.in_range 65 70 c then Some (n - 55)
  else None.

(** The escape of one character inside a JSON string. *)
Definition escape_char (c : ascii) : string :=
  let n := JSString.code c in
  if (n =? 34)%nat then String backslash_char (String quote_char EmptyString)
  else if (n =? 92)%nat then String backslash_char (String backslash_char EmptyString)
  else if (n =? 8)%nat then String backslash_char "b"
  else if (n =? 9)%nat then String backslash_char "t"
  else if (n =? 10)%nat then String backslash_char "n"
  else if (n =? 12)%nat then String backslash_char "f"
  else if (n =? 13)%nat then String backslash_char "r"
  else if (n <? 32)%nat then
    String backslash_char
      (String "u" (String "0" (String "0"
         (String (hex_char (n / 16)) (String (hex_char n) EmptyString)))))
  else String c EmptyString.

Fixpoint escape (s : string) : string :=
  match s with
  | EmptyString => EmptyString
  | String c s' => escape_char c +:+ escape s'
  end.

Definition quote (s : string) : string :=
  String quote_char (escape s +:+ String quote_char EmptyString).

Fixpoint join_comma (l : list string) : string :=
  match l with
  | [] => EmptyString
  | [x] => x
  | x :: rest => x +:+ "," +:+ join_comma rest
  end.

Definition stringify_number (q : Q) : string := pretty.pretty (Qfloor q).

Fixpoint stringify (v : json) : string :=
  match v with
  | JNull => "null"
  | JBool true => "true"
  | JBool false => "false"
  | JNumber q => stringify_number q
  | JString s => quote s
  | JArray items => "[" +:+ join_comma (map stringify items) +:+ "]"
  | JObject members =>
      "{" +:+ join_comma (map (fun kv => quote (fst kv) +:+ ":" +:+ stringify (snd kv))
                              members) +:+ "}"
  end.

Definition is_json_ws (c : ascii) : bool :=
  let n := JSString.code c in
  (n =? 32)%nat || (n =? 9)%nat || (n =? 10)%nat || (n =? 13)%nat.

Fixpoint skip_ws (s : string) : string :=
  match s with
  | EmptyString => EmptyString
  | String c s' => if is_json_ws c then skip_ws s' else s
  end.

(** The character a one-letter escape stands for. *)
Definition unescape (e : ascii) : option ascii :=
  let n := JSString.code e in
  if (n =? 34)%nat then Some quote_char
  else if (n =? 92)%nat then Some backslash_char
  else if (n =? 47)%nat then Some "/"%char
  else if (n =? 98)%nat then Some (ascii_of_nat 8)
  else if (n =? 116)%nat then Some (ascii_of_nat 9)
  else if (n =? 110)%nat then Some (ascii_of_nat 10)
  else if (n =? 102)%nat then Some (ascii_of_nat 12)
  else if (n =? 114)%nat then Some (ascii_of_nat 13)
  else None.

(** The character of a [\uXXXX] escape; code points from 256 on are
    beyond the characters of this model. *)
Definition unicode_escape (h1 h2 h3 h4 : ascii) : option ascii :=
  match hex_value h1, hex_value h2, hex_value h3, hex_value h4 with
  | Some a, Some b, Some c, Some d =>
      if ((a =? 0) && (b =? 0))%nat then Some (ascii_of_nat (16 * c + d)) else None
  | _, _, _, _ => None
  end.

Definition cons_char (c : ascii) (r : option (string * string)) : option (string * string) :=
  match r with
  | Some (s, rest) => Some (String c s, rest)
  | None => None
  end.

(** The characters of a string after its opening quote, up to and
    including the closing quote; the rest of the input is returned. *)
Fixpoint parse_chars (s : string) : option (string * string) :=
  match s with
  | EmptyString => None
  | String c r =>
      if (JSString.code c =? 34)%nat then Some (EmptyString, r)
      else if (JSString.code c =? 92)%nat then
        match r with
        | EmptyString => None
        | String e r' =>
            match unescape e with
            | Some c' => cons_char c' (parse_chars r')
            | None =>
                if (JSString.code e =? 117)%nat then
                  match r' with
                  | String h1 (String h2 (String h3 (String h4 r''))) =>
                      match unicode_escape h1 h2 h3 h4 with
                      | Some c' => cons_char c' (parse_chars r'')
                      | None => None
                      end
                  | _ => None
                  end
                else None
            end
        end
      else if (JSString.code c <? 32)%nat then None
      else cons_char c (parse_chars r)
  end.

(** The digits at the head of the input, as a number. *)
Fixpoint parse_digits (acc : Z) (s : string) : Z * string :=
  match s with
  | String c r =>
      if JSString.is_digit c
      then parse_digits (10 * acc + Z.of_nat (JSString.code c - 48)) r
      else (acc, s)
  | EmptyString => (acc, s)
  end.

Definition starts_with_digit (s : string) : bool :=
  match s with
  | String c _ => JSString.is_digit c
  | EmptyString => false
  end.

Definition parse_literal (s : string) : option (json * string) :=
  match s with
  | String "n" (String "u" (String "l" (String "l" r))) => Some (JNull, r)
  | String "t" (String "r" (String "u" (String "e" r))) => Some (JBool true, r)
  | String "f" (String "a" (String "l" (String "s" (String "e" r)))) =>
      Some (JBool false, r)
  | String "-" r =>
      if starts_with_digit r
      then let '(n, r') := parse_digits 0 r in Some (JNumber (inject_Z (- n)), r')
      else None
  | _ =>
      if starts_with_digit s
      then let '(n, r') := parse_digits 0 s in Some (JNumber (inject_Z n), r')
      else None
  end.

(** Recursive descent; [fuel] bounds the depth of the recursion. *)
Fixpoint parse_value (fuel : nat) (s : string) : option (json * string) :=
  match fuel with
  | O => None
  | S fuel' =>
      match skip_ws s with
      | EmptyString => None
      | String c r =>
          if (JSString.code c =? 34)%nat then
            match parse_chars r with
            | Some (str, r') => Some (JString str, r')
            | None => None
            end
          else if (JSString.code c =? 91)%nat then        (* [ *)
            match skip_ws r with
            | String "]" r' => Some (JArray [], r')
            | _ =>
                match parse_items fuel' r with
                | Some (items, r') => Some (JArray items, r')
                | None => None
                end
            end
          else if (JSString.code c =? 123)%nat then       (* { *)
            match skip_ws r with
            | String "}" r' => Some (JObject [], r')
            | _ =>
                match parse_members fuel' r with
                | Some (members, r') => Some (JObject members, r')
                | None => None
                end
            end
          else parse_literal (String c r)
      end
  end
with parse_items (fuel : nat) (s : string) : option (list json * string) :=
  match fuel with
  | O => None
  | S fuel' =>
      match parse_value fuel' s with
      | None => None
      | Some (v, r) =>
          match skip_ws r with
          | String "," r' =>
              match parse_items fuel' r' with
              | Some (vs, r'') => Some (v :: vs, r'')
              | None => None
              end
          | String "]" r' => Some ([v], r')
          | _ => None
          end
      end
  end
with parse_members (fuel : nat) (s : string) : option (list (string * json) * string) :=
  match fuel with
  | O => None
  | S fuel' =>
      match skip_ws s with
      | String c r =>
          if (JSString.code c =? 34)%nat then
            match parse_chars r with
            | None => None
            | Some (key, r1) =>
                match skip_ws r1 with
                | String ":" r2 =>
                    match parse_value fuel' r2 with
                    | None => None
                    | Some (v, r3) =>
                        match skip_ws r3 with
                        | String "," r4 =>
                            match parse_members fuel' r4 with
                            | Some (ms, r5) => Some ((key, v) :: ms, r5)
                            | None => None
                            end
                        | String "}" r4 => Some ([(key, v)], r4)
                        | _ => None
                        end
                    end
                | _ => None
                end
            end
          else None
      | EmptyString => None
      end
  end.

(** The whole text must be one value, white space around it allowed. *)
Definition parse (s : string) : option json :=
  match parse_value (2 * String.length s + 2) s with
  | Some (v, r) =>
      match skip_ws r with
      | EmptyString => Some v
      | _ => None
      end
  | None => None
  end.

End RefJSON.

(** Ten pixels for every character, whatever the font. *)
Definition fixed_pitch_width (f : css_font) (s : string) : Q :=
  inject_Z (10 * Z.of_nat (String.length s)).

#[export] Instance reference_platform : Platform := {|
  JSON_parse := RefJSON.parse;
  JSON_stringify := RefJSON.stringify;
  measureText_width := fixed_pitch_width;
  toLocaleDateString := fun iso => iso
|}.

(** ** Laws of a platform *)

(** The part of the JSON contract the storage helpers rely on: a list of
    certificates survives [stringify] then [parse], its text is never the
    empty string, and the text ["[]"] is the empty array. *)
Class JSONLaws (browser : Platform) : Prop := {
  parse_stringify_list :
    forall l : list certificate,
      JSON_parse (JSON_stringify (json_of_list l)) = Some (json_of_list l);
  stringify_list_truthy :
    forall l : list certificate,
      JSString.truthy (JSON_stringify (json_of_list l)) = true;
  parse_empty_array : JSON_parse "[]" = Some (JArray [])
}.

(** What the word wrap needs of text measurement: trimming a text and
    cutting off its end never make it wider. *)
Class MeasureLaws (browser : Platform) : Prop := {
  measure_trim_le :
    forall (f : css_font) (s : string),
      (measureText_width f (JSString.trim s) <= measureText_width f s)%Q;
  measure_prefix_le :
    forall (f : css_font) (s t : string),
      (measureText_width f s <= measureText_width f (s +:+ t))%Q
}.

(** ** The word wrap as the specification words it *)

(** The text of a candidate line that holds the words [ws]: the renderer
    keeps every word followed by one space. *)
Fixpoint line_of_words (ws : list string) : string :=
  match ws with
  | [] => EmptyString
  | w :: rest => (w +:+ " ") +:+ line_of_words rest
  end.

(** A line as it is drawn. *)
Definition drawn_line (ws : list string) : string :=
  JSString.trim (line_of_words ws).

Section WrapReference.
Context {browser : Platform}.
Variable fnt : css_font.
Variable maxWidth : Q.

(** Adding [word] to the candidate line [cur] would exceed the width. *)
Definition would_exceed (cur : list string) (word : string) : bool :=
  Qgt_bool (measureText_width fnt (line_of_words (cur ++ [word]))) maxWidth.

Definition has_word (cur : list string) : bool :=
  match cur with [] => false | _ => true end.

(** Accumulate words into the candidate line [cur]; when adding a word
    would exceed the width and the line already has a word, emit the
    line and start a new one with that word; otherwise keep appending.
    The trailing line is always emitted. *)
Fixpoint wrap_reference (cur : list string) (words : list string)
  : list (list string) :=
  match words with
  | [] => [cur]
  | word :: rest =>
      if would_exceed cur word && has_word cur
      then cur :: wrap_reference [word] rest
      else wrap_reference (cur ++ [word]) rest
  end.

End WrapReference.

(** Lines drawn one below the other from [y], each [lineHeight] lower
    than the one before, all at abscissa [x] under the drawing state [st]. *)
Fixpoint place_lines (st : draw_state) (x y lineHeight : Q) (lines : list string)
  : list draw_op :=
  match lines with
  | [] => []
  | l :: rest =>
      FillText (fillStyle st) (font st) (textAlign st) l x y
        :: place_lines st x (y + lineHeight)%Q lineHeight rest
  end.

(** The commands a call added to a context. *)
Definition emitted_by (before after : Context2D) : list draw_op :=
  skipn (length (drawn before)) (drawn after).

Definition op_text (op : draw_op) : option string :=
  match op with
  | FillText _ _ _ text _ _ => Some text
  | FillRect _ _ _ _ _ => None
  end.

(** The lines of text a call of [wrapText] draws, top to bottom. *)
Definition wrapText_lines {browser : Platform} (ctx : Context2D) (text : string)
           (x y maxWidth lineHeight : Q) : list string :=
  omap op_text (emitted_by ctx (wrapText ctx text x y maxWidth lineHeight)).

(** ** The mock QR box as a pattern *)

(** A context after further commands, its drawing state as before. *)
Definition draws (ops : list draw_op) (ctx : Context2D) : Context2D :=
  mkContext2D (state ctx) (saved ctx) (drawn ctx ++ ops).

(** The cells of the six by six board that are filled: those whose
    coordinates add up to an even number, column by column. *)
Definition cell_is_dark (ij : nat * nat) : bool :=
  ((fst ij + snd ij) mod 2 =? 0)%nat.

Definition checkerboard_cells : list (nat * nat) :=
  List.filter cell_is_dark (list_prod (seq 0 6) (seq 0 6)).

(** The square of cell [(i, j)] on a board at [(x, y)] with cells [step]
    apart. *)
Definition cell_command (x y step : Q) (style : fill_style) (ij : nat * nat) : draw_op :=
  FillRect style
           (x + 12 + inject_Z (Z.of_nat (fst ij)) * step)%Q
           (y + 12 + inject_Z (Z.of_nat (snd ij)) * step)%Q
           (step - 2)%Q (step - 2)%Q.

(** The commands of the box at [(x, y)] of side [size]: a dark square, a
    white inset, and the dark cells of the board. *)
Definition mockQR_commands (x y size : Q) : list draw_op :=
  [ FillRect (Color "#0b1220") x y size size;
    FillRect (Color "#fff") (x + 12) (y + 12) (size - 24) (size - 24) ]%Q
  ++ map (cell_command x y (Math_floor ((size - 24) / 6)) (Color "#0b1220"))
         checkerboard_cells.

(** ** Tokens as digits *)

(** The first [len] digits of a drawn number, as the module reads them. *)
Definition leading_digits (len : nat) (d : draw) : list nat :=
  map (fun k => k mod 36) (firstn len d).

(** ** Sample data *)

(** What a computation returned, if it returned. *)
Definition returned {A : Type} (r : outcome A * World) : option A :=
  match fst r with
  | Normal a => Some a
  | Thrown _ => None
  end.

(** A browser with an empty, accessible [localStorage] of the given quota;
    the n-th random number prints the digits [n+1], 7, 30, 2. *)
Definition sample_world (quota : nat) : World :=
  mkWorld (mkLocalStorage ∅ quota false) []
          (fun n => [n + 1; 7; 30; 2]) 0
          (fun _ => "2024-03-01T10:00:00.000Z") 0.

(** A browser whose random numbers print the given digits, one list per
    call, and the number 0 after that. *)
Definition world_of_draws (ds : list draw) : World :=
  mkWorld (mkLocalStorage ∅ 5000 false) []
          (fun n => nth n ds []) 0
          (fun _ => "2024-03-01T10:00:00.000Z") 0.

Definition ana_form : form_values :=
  mkForm "Ana Ruiz" "Curso de Primeros Auxilios" "Centro X" "2024-03-01"
         "Completó el curso satisfactoriamente.".

Definition luis_form : form_values :=
  mkForm " Luis Mora " "Curso" "Centro X" EmptyString
         "Asistio a todas las sesiones del curso y aprobo la evaluacion final.".

Definition ana_payload : payload :=
  mkPayload "Ana Ruiz" "Curso de Primeros Auxilios" "Centro X" "2024-03-01"
            "Completó el curso satisfactoriamente.".

(** The records the two forms give in [sample_world], in this order. *)
Definition ana : certificate :=
  {| id := "17u2";
     verificationCode := "27U2";
     name := "Ana Ruiz";
     title := "Curso de Primeros Auxilios";
     issuer := "Centro X";
     date := "2024-03-01";
     note := "Completó el curso satisfactoriamente.";
     createdAt := "2024-03-01T10:00:00.000Z" |}.

Definition luis : certificate :=
  {| id := "37u2";
     verificationCode := "47U2";
     name := "Luis Mora";
     title := "Curso";
     issuer := "Centro X";
     date := "2024-03-01";
     note := "Asistio a todas las sesiones del curso y aprobo la evaluacion final.";
     createdAt := "2024-03-01T10:00:00.000Z" |}.

(** A module on a page without canvas, its history empty. *)
Definition new_module : CertificateModule := mkModule [] None None.

(** The context in which [drawCertificateToCanvas] calls [wrapText]. *)
Definition note_context : Context2D :=
  set_fillStyle (Color "#334155") (set_font "18px Inter, Arial" reset_context).

Fixpoint repeat_char (c : ascii) (n : nat) : string :=
  match n with
  | O => EmptyString
  | S n' => String c (repeat_char c n')
  end.

(** One word of a hundred letters: 1000 pixels in the reference font. *)
Definition long_word : string := repeat_char "a" 100.

(** Two words of 88 letters: 880 pixels each at ten pixels a letter, 890
    with the space the renderer keeps after a word. *)
Definition two_wide_words : string :=
  (repeat_char "a" 88 +:+ " ") +:+ repeat_char "b" 88.

Definition course_note : string :=
  "Por haber completado satisfactoriamente el curso de primeros auxilios impartido en el Centro X durante 2024.".

(** Generate for Ana, generate for Luis, then delete Ana's record. *)
Definition generate_twice_delete_first {browser : Platform} : JS CertificateModule :=
  bind (_handleGenerateAndSave ana_form new_module) (fun m1 =>
  bind (_handleGenerateAndSave luis_form m1) (fun m2 =>
  btnDelete_click "17u2" true m2)).

(** ** The search query and further sample data *)

(** The query of the search handler: the value of the field, or the
    empty string, trimmed and in upper case. *)
Definition search_query (value : string) : string :=
  JSString.toUpperCase (JSString.trim (JSString.or_else value EmptyString)).

(** The characters of ASCII. *)
Definition is_ascii (c : ascii) : bool := (JSString.code c <? 128)%nat.

(** A form whose name is white space only. *)
Definition blank_form : form_values :=
  mkForm "   " "Curso" "Centro X" "2024-03-01" EmptyString.

(** The certificate of Ana under another id, created at another time. *)
Definition ana_reissued : certificate :=
  {| id := "zz99";
     verificationCode := "27U2";
     name := "Ana Ruiz";
     title := "Curso de Primeros Auxilios";
     issuer := "Centro X";
     date := "2024-03-01";
     note := "Completó el curso satisfactoriamente.";
     createdAt := "2025-01-01T00:00:00.000Z" |}.

(** * Properties *)

(** ** Strings *)

Lemma append_String (c : ascii) (a b : string) : String c a +:+ b = String c (a +:+ b).
Proof. reflexivity. Qed.

Lemma append_empty_l (b : string) : EmptyString +:+ b = b.
Proof. reflexivity. Qed.

Lemma append_empty_r (a : string) : a +:+ EmptyString = a.
Proof. induction a as [| c a IH]; [reflexivity |]. now rewrite append_String, IH. Qed.

Lemma append_assoc (a b c : string) : (a +:+ b) +:+ c = a +:+ (b +:+ c).
Proof.
  induction a as [| x a IH]; [reflexivity |].
  now rewrite !append_String, IH.
Qed.

Lemma length_append (a b : string) :
  String.length (a +:+ b) = String.length a + String.length b.
Proof.
  induction a as [| c a IH]; [reflexivity |].
  rewrite append_String. simpl. now rewrite IH.
Qed.

(** ** Browser primitives *)

Lemma setItem_returns (k v : string) (w : World) :
  returns (localStorage_setItem k v w) = true ->
  ls_denied (localStorage w) = false /\
  localStorage_setItem k v w =
    (Normal tt,
     set_localStorage
       (mkLocalStorage (<[k := v]> (ls_items (localStorage w)))
                       (ls_quota (localStorage w)) false) w).
Proof.
  unfold returns, localStorage_setItem.
  destruct (ls_denied (localStorage w)) eqn:Hd; simpl; [discriminate |].
  destruct (_ <=? _)%nat; simpl; [| discriminate].
  intros _. split; reflexivity.
Qed.

Lemma setItem_throws (k v : string) (w : World) :
  returns (localStorage_setItem k v w) = false ->
  exists e, localStorage_setItem k v w = (Thrown e, w).
Proof.
  unfold returns, localStorage_setItem.
  destruct (ls_denied (localStorage w)); simpl; [eauto |].
  destruct (_ <=? _)%nat; simpl; [discriminate | eauto].
Qed.

Lemma getItem_accessible (k : string) (w : World) :
  ls_denied (localStorage w) = false ->
  localStorage_getItem k w = (Normal (ls_items (localStorage w) !! k), w).
Proof. intros Hd. unfold localStorage_getItem. now rewrite Hd. Qed.

Lemma getItem_denied (k : string) (w : World) :
  ls_denied (localStorage w) = true ->
  localStorage_getItem k w = (Thrown SecurityError, w).
Proof. intros Hd. unfold localStorage_getItem. now rewrite Hd. Qed.

(** ** Storage helpers *)

Section StorageFacts.
Context {browser : Platform}.

(** A write that goes through leaves the serialized list in the slot
    and nothing in the console. *)
Lemma storage_save_written (records : list certificate) (w : World) :
  returns (localStorage_setItem STORAGE_KEY (JSON_stringify (json_of_list records)) w) = true ->
  storage_save records w =
    (Normal tt,
     set_localStorage
       (mkLocalStorage
          (<[STORAGE_KEY := JSON_stringify (json_of_list records)]>
             (ls_items (localStorage w)))
          (ls_quota (localStorage w)) false) w).
Proof.
  intros Hok. destruct (setItem_returns _ _ _ Hok) as [_ Heq].
  unfold storage_save, try_catch. now rewrite Heq.
Qed.

(** A write that throws is logged and changes nothing else. *)
Lemma storage_save_failed (records : list certificate) (w : World) :
  returns (localStorage_setItem STORAGE_KEY (JSON_stringify (json_of_list records)) w) = false ->
  exists e,
    storage_save records w =
      (Normal tt, set_console (console w ++ [("Storage write error", e)]) w).
Proof.
  intros Hko. destruct (setItem_throws _ _ _ Hko) as [e Heq].
  exists e. unfold storage_save, try_catch. now rewrite Heq.
Qed.

Lemma storage_save_returns (records : list certificate) (w : World) :
  result (storage_save records w) = Normal tt.
Proof.
  destruct (returns (localStorage_setItem STORAGE_KEY
                       (JSON_stringify (json_of_list records)) w)) eqn:H.
  - now rewrite (storage_save_written _ _ H).
  - destruct (storage_save_failed _ _ H) as [e ->]. reflexivity.
Qed.

(** What [load] does, by the content of the slot. *)
Lemma storage_load_denied (w : World) :
  ls_denied (localStorage w) = true ->
  storage_load w =
    (Normal (JArray []),
     set_console (console w ++ [("Storage read error", SecurityError)]) w).
Proof.
  intros Hd. unfold storage_load, try_catch, bind.
  now rewrite (getItem_denied _ _ Hd).
Qed.

Lemma storage_load_raw (w : World) (raw : string) :
  ls_denied (localStorage w) = false ->
  match ls_items (localStorage w) !! STORAGE_KEY with
  | Some s => JSString.or_else s "[]"
  | None => "[]"
  end = raw ->
  storage_load w =
    match JSON_parse raw with
    | Some v => (Normal v, w)
    | None =>
        (Normal (JArray []),
         set_console (console w ++ [("Storage read error", SyntaxError)]) w)
    end.
Proof.
  intros Hd Hraw. unfold storage_load, try_catch, bind.
  rewrite (getItem_accessible _ _ Hd), Hraw.
  unfold JSON_parse_js. now destruct (JSON_parse raw).
Qed.

Lemma storage_load_returns (w : World) : returns (storage_load w) = true.
Proof.
  destruct (ls_denied (localStorage w)) eqn:Hd.
  - now rewrite (storage_load_denied _ Hd).
  - rewrite (storage_load_raw w _ Hd eq_refl).
    now destruct (JSON_parse _).
Qed.

Lemma storage_load_keeps_storage (w : World) :
  localStorage (world_after (storage_load w)) = localStorage w.
Proof.
  destruct (ls_denied (localStorage w)) eqn:Hd.
  - now rewrite (storage_load_denied _ Hd).
  - rewrite (storage_load_raw w _ Hd eq_refl).
    now destruct (JSON_parse _).
Qed.

Context {laws : JSONLaws browser}.

Lemma storage_load_stored (w : World) (records : list certificate) :
  ls_denied (localStorage w) = false ->
  ls_items (localStorage w) !! STORAGE_KEY
    = Some (JSON_stringify (json_of_list records)) ->
  storage_load w = (Normal (json_of_list records), w).
Proof.
  intros Hd Hslot.
  rewrite (storage_load_raw w (JSON_stringify (json_of_list records)) Hd).
  - now rewrite parse_stringify_list.
  - rewrite Hslot. unfold JSString.or_else.
    now rewrite stringify_list_truthy.
Qed.

(** Save then load, when the write goes through. *)
Lemma save_then_load (records : list certificate) (w : World) :
  returns (localStorage_setItem STORAGE_KEY (JSON_stringify (json_of_list records)) w) = true ->
  result (storage_load (world_after (storage_save records w)))
    = Normal (json_of_list records).
Proof.
  intros Hok. rewrite (storage_save_written _ _ Hok).
  unfold world_after; simpl snd.
  rewrite (storage_load_stored _ records); [reflexivity | reflexivity |].
  simpl. apply lookup_insert_eq.
Qed.

End StorageFacts.

(** ** The reference platform meets the laws *)

Module RefJSONFacts.
Import RefJSON.

Lemma parse_chars_escape (s r : string) :
  parse_chars (escape s +:+ String quote_char r) = Some (s, r).
Proof.
  induction s as [| c s IH].
  - reflexivity.
  - cbn [escape]. rewrite append_assoc.
    destruct c as [b0 b1 b2 b3 b4 b5 b6 b7].
    destruct b0, b1, b2, b3, b4, b5, b6, b7;
      (match goal with
       | |- context [escape_char ?c] =>
           let e := eval vm_compute in (escape_char c) in
           change (escape_char c) with e
       end;
       rewrite ?append_String, append_empty_l;
       cbn; rewrite IH; reflexivity).
Qed.

Ltac flatten_text :=
  unfold quote; repeat rewrite ?append_assoc, ?append_String, ?append_empty_l.

(** Decide the tests on the character at the head of the input. *)
Ltac head_tests :=
  repeat match goal with
         | |- context [is_json_ws ?c] =>
             let v := eval vm_compute in (is_json_ws c) in
             lazymatch v with
             | true => change (is_json_ws c) with true
             | false => change (is_json_ws c) with false
             end
         | |- context [Nat.eqb (JSString.code ?c) ?n] =>
             let v := eval vm_compute in (Nat.eqb (JSString.code c) n) in
             lazymatch v with
             | true => change (Nat.eqb (JSString.code c) n) with true
             | false => change (Nat.eqb (JSString.code c) n) with false
             end
         end.

Ltac head_char := repeat first [progress head_tests | progress cbn].

Lemma parse_value_string (fuel : nat) (s rest : string) :
  parse_value (S fuel) (String quote_char (escape s +:+ String quote_char rest))
  = Some (JString s, rest).
Proof. cbn. head_char. now rewrite parse_chars_escape. Qed.

Lemma parse_member_more (fuel : nat) (k v rest : string) :
  parse_members (S (S fuel))
    (String quote_char (escape k +:+ String quote_char (String ":"
       (String quote_char (escape v +:+ String quote_char (String "," rest))))))
  = match parse_members (S fuel) rest with
    | Some (ms, r) => Some ((k, JString v) :: ms, r)
    | None => None
    end.
Proof.
  cbn. head_char. rewrite parse_chars_escape. head_char.
  rewrite parse_chars_escape. head_char. reflexivity.
Qed.

Lemma parse_member_last (fuel : nat) (k v rest : string) :
  parse_members (S (S fuel))
    (String quote_char (escape k +:+ String quote_char (String ":"
       (String quote_char (escape v +:+ String quote_char (String "}" rest))))))
  = Some ([(k, JString v)], rest).
Proof.
  cbn. head_char. rewrite parse_chars_escape. head_char.
  rewrite parse_chars_escape. head_char. reflexivity.
Qed.

Lemma parse_value_object (fuel : nat) (text : string) :
  parse_value (S fuel) (String "{" (String quote_char text))
  = match parse_members fuel (String quote_char text) with
    | Some (members, r) => Some (JObject members, r)
    | None => None
    end.
Proof. cbn. head_char. reflexivity. Qed.

Lemma parse_value_array (fuel : nat) (text : string) :
  parse_value (S fuel) (String "[" (String "{" text))
  = match parse_items fuel (String "{" text) with
    | Some (items, r) => Some (JArray items, r)
    | None => None
    end.
Proof. cbn. head_char. reflexivity. Qed.

Lemma parse_items_more (fuel : nat) (s r : string) (v : json) :
  parse_value fuel s = Some (v, String "," r) ->
  parse_items (S fuel) s
  = match parse_items fuel r with
    | Some (vs, r') => Some (v :: vs, r')
    | None => None
    end.
Proof. intros Hv. cbn. rewrite Hv. head_char. reflexivity. Qed.

Lemma parse_items_last (fuel : nat) (s r : string) (v : json) :
  parse_value fuel s = Some (v, String "]" r) ->
  parse_items (S fuel) s = Some ([v], r).
Proof. intros Hv. cbn. rewrite Hv. head_char. reflexivity. Qed.

Lemma parse_value_certificate (fuel : nat) (c : certificate) (rest : string) :
  10 <= fuel ->
  parse_value fuel (stringify (json_of_certificate c) +:+ rest)
  = Some (json_of_certificate c, rest).
Proof.
  intros Hfuel.
  do 10 (destruct fuel as [| fuel]; [lia |]). clear Hfuel.
  cbn [stringify json_of_certificate map join_comma fst snd].
  flatten_text.
  rewrite parse_value_object.
  do 7 rewrite parse_member_more.
  rewrite parse_member_last. reflexivity.
Qed.

Lemma stringify_list_cons (c : certificate) (l : list certificate) :
  stringify (json_of_list (c :: l))
  = "[" +:+ join_comma (map stringify (map json_of_certificate (c :: l))) +:+ "]".
Proof. reflexivity. Qed.

Lemma parse_items_certificates (l : list certificate) (c : certificate)
      (fuel : nat) (rest : string) :
  length l + 11 <= fuel ->
  parse_items fuel
    (join_comma (map stringify (map json_of_certificate (c :: l)))
       +:+ String "]" rest)
  = Some (map json_of_certificate (c :: l), rest).
Proof.
  revert c fuel. induction l as [| c' l IH]; intros c fuel Hfuel.
  - destruct fuel as [| fuel]; [simpl in Hfuel; lia |].
    cbn [map join_comma].
    apply parse_items_last, parse_value_certificate. simpl in Hfuel. lia.
  - destruct fuel as [| fuel]; [simpl in Hfuel; lia |].
    change (join_comma (map stringify (map json_of_certificate (c :: c' :: l))))
      with (stringify (json_of_certificate c) +:+ "," +:+
            join_comma (map stringify (map json_of_certificate (c' :: l)))).
    rewrite !append_assoc, append_String, append_empty_l.
    erewrite parse_items_more;
      [| apply parse_value_certificate; simpl in Hfuel; lia].
    rewrite IH; [reflexivity | simpl in *; lia].
Qed.

Lemma length_certificate (c : certificate) :
  11 <= String.length (stringify (json_of_certificate c)).
Proof.
  cbn [map join_comma stringify json_of_certificate].
  rewrite !length_append. simpl. lia.
Qed.

Lemma length_join_certificates (l : list certificate) :
  11 * length l <= String.length (join_comma (map stringify (map json_of_certificate l))).
Proof.
  induction l as [| c l IH]; [simpl; lia |].
  pose proof (length_certificate c) as Hc.
  destruct l as [| c' l].
  - cbn [map join_comma length]. lia.
  - change (join_comma (map stringify (map json_of_certificate (c :: c' :: l))))
      with (stringify (json_of_certificate c) +:+ "," +:+
            join_comma (map stringify (map json_of_certificate (c' :: l)))).
    rewrite !length_append.
    change (length (c :: c' :: l)) with (S (length (c' :: l))). lia.
Qed.

Lemma parse_stringify_certificates (l : list certificate) :
  parse (stringify (json_of_list l)) = Some (json_of_list l).
Proof.
  destruct l as [| c l]; [reflexivity |].
  unfold parse.
  pose proof (length_join_certificates (c :: l)) as Hlen.
  rewrite stringify_list_cons.
  rewrite append_String, append_empty_l.
  set (body := join_comma (map stringify (map json_of_certificate (c :: l)))) in *.
  assert (Hfuel : exists fuel, 2 * String.length (String "[" (body +:+ "]")) + 2 = S fuel
                               /\ length l + 11 <= fuel).
  { exists (2 * String.length (String "[" (body +:+ "]")) + 1). split; [lia |].
    simpl String.length. rewrite length_append. simpl in *. lia. }
  destruct Hfuel as (fuel & -> & Hfuel).
  assert (Hbody : exists text, body = String "{" text).
  { subst body. destruct l; cbn [map join_comma stringify]; eauto. }
  destruct Hbody as [text Htext]. rewrite Htext, append_String.
  rewrite parse_value_array. rewrite <- append_String, <- Htext.
  subst body. rewrite parse_items_certificates by exact Hfuel.
  reflexivity.
Qed.

Lemma stringify_list_truthy (l : list certificate) :
  JSString.truthy (stringify (json_of_list l)) = true.
Proof. reflexivity. Qed.
End RefJSONFacts.

#[export] Instance reference_json_laws : JSONLaws reference_platform.
Proof.
  constructor.
  - exact RefJSONFacts.parse_stringify_certificates.
  - exact RefJSONFacts.stringify_list_truthy.
  - reflexivity.
Qed.

(** ** Word wrap *)

Lemma Qgt_bool_true (a b : Q) : Qgt_bool a b = true <-> (b < a)%Q.
Proof.
  unfold Qgt_bool. rewrite negb_true_iff. split.
  - intros H. apply Qnot_le_lt. intros Hle.
    apply Qle_bool_iff in Hle. congruence.
  - intros H. destruct (Qle_bool a b) eqn:E; [| reflexivity].
    apply Qle_bool_iff in E. exfalso. exact (Qlt_not_le _ _ H E).
Qed.

Lemma Qgt_bool_false (a b : Q) : Qgt_bool a b = false <-> (a <= b)%Q.
Proof.
  unfold Qgt_bool. rewrite negb_false_iff. apply Qle_bool_iff.
Qed.

Lemma line_of_words_app (cur : list string) (w : string) :
  line_of_words (cur ++ [w]) = (line_of_words cur +:+ w) +:+ " ".
Proof.
  induction cur as [| c cur IH]; simpl.
  - now rewrite append_empty_r, append_empty_l.
  - now rewrite IH, !append_assoc.
Qed.

Lemma line_of_words_truthy (cur : list string) :
  cur <> [] -> JSString.truthy (line_of_words cur) = true.
Proof.
  destruct cur as [| w cur]; [congruence |]. intros _.
  simpl. destruct w; reflexivity.
Qed.

Lemma split_space_nonempty (s : string) : JSString.split_space s <> [].
Proof.
  destruct s as [| c s]; simpl; [discriminate |].
  destruct (_ =? _)%char; [discriminate |].
  destruct (JSString.split_space s); discriminate.
Qed.

(** Joining the pieces of [split(' ')] gives the text back: the candidate
    line of all the words is the text followed by one space. *)
Lemma line_of_split (s : string) :
  line_of_words (JSString.split_space s) = s +:+ " ".
Proof.
  induction s as [| c s IH]; [reflexivity |].
  simpl JSString.split_space.
  destruct (Ascii.eqb_spec c " ") as [-> | Hc].
  - simpl line_of_words. now rewrite IH.
  - destruct (JSString.split_space s) as [| w ws] eqn:E.
    + now destruct (split_space_nonempty s).
    + simpl line_of_words in *. rewrite !append_String. f_equal. exact IH.
Qed.

Section WrapFacts.
Context {browser : Platform}.
Variables (x maxWidth lineHeight : Q).

Lemma wrapText_unfold (ctx : Context2D) (text : string) (y : Q) :
  wrapText ctx text x y maxWidth lineHeight
  = wrapText_finish x maxWidth
      (wrapText_loop x maxWidth lineHeight (JSString.split_space text) 0
                     (set_textAlign "center" ctx) EmptyString y).
Proof. reflexivity. Qed.

Lemma has_word_true (cur : list string) : has_word cur = true <-> cur <> [].
Proof. destruct cur; simpl; split; congruence. Qed.

(** The loop of the source and the reference algorithm draw the same
    lines: [n] counts the words consumed, [cur] holds the words of the
    current line. *)
Lemma wrapText_loop_reference (words : list string) :
  forall (n : nat) (ctx : Context2D) (cur : list string) (y : Q),
    (0 <? n)%nat = has_word cur ->
    cur <> [] \/ words <> [] ->
    wrapText_finish x maxWidth
      (wrapText_loop x maxWidth lineHeight words n ctx (line_of_words cur) y)
    = mkContext2D (state ctx) (saved ctx)
        (drawn ctx ++
           place_lines (state ctx) (x + maxWidth / 2)%Q y lineHeight
             (map drawn_line
                  (wrap_reference (font (state ctx)) maxWidth cur words))).
Proof.
  induction words as [| word rest IH]; intros n ctx cur y Hn Hne.
  - destruct Hne as [Hcur | []]; [| congruence].
    simpl. rewrite (line_of_words_truthy _ Hcur). reflexivity.
  - cbn [wrapText_loop wrap_reference].
    unfold would_exceed. rewrite line_of_words_app, Hn.
    destruct (Qgt_bool _ maxWidth && has_word cur) eqn:Hbreak.
    + replace (word +:+ " ") with (line_of_words [word])
        by (simpl; apply append_empty_r).
      rewrite IH; [| reflexivity | left; discriminate].
      unfold fillText, emit. cbn [state saved drawn map place_lines].
      now rewrite <- app_assoc.
    + rewrite <- line_of_words_app.
      rewrite IH; [reflexivity | | left].
      * destruct cur; reflexivity.
      * destruct cur; discriminate.
Qed.

Lemma wrapText_reference (ctx : Context2D) (text : string) (y : Q) :
  wrapText ctx text x y maxWidth lineHeight
  = mkContext2D
      (state (set_textAlign "center" ctx)) (saved ctx)
      (drawn ctx ++
         place_lines (state (set_textAlign "center" ctx))
           (x + maxWidth / 2)%Q y lineHeight
           (map drawn_line
                (wrap_reference (font (state ctx)) maxWidth []
                                (JSString.split_space text)))).
Proof.
  rewrite wrapText_unfold.
  change EmptyString with (line_of_words []).
  rewrite wrapText_loop_reference; [reflexivity | reflexivity |].
  right. apply split_space_nonempty.
Qed.

Lemma op_text_place_lines (st : draw_state) (x0 y : Q) (lines : list string) :
  omap op_text (place_lines st x0 y lineHeight lines) = lines.
Proof.
  revert y. induction lines as [| l lines IH]; intros y; [reflexivity |].
  simpl. now rewrite IH.
Qed.

Lemma wrapText_lines_reference (ctx : Context2D) (text : string) (y : Q) :
  wrapText_lines ctx text x y maxWidth lineHeight
  = map drawn_line
        (wrap_reference (font (state ctx)) maxWidth [] (JSString.split_space text)).
Proof.
  unfold wrapText_lines, emitted_by. rewrite wrapText_reference.
  cbn [drawn]. rewrite drop_app_length. apply op_text_place_lines.
Qed.

End WrapFacts.

Section ReferenceFacts.
Context {browser : Platform}.
Variables (fnt : css_font) (maxWidth : Q).

(** The first word always opens the first line. *)
Lemma wrap_reference_first (w : string) (rest : list string) :
  wrap_reference fnt maxWidth [] (w :: rest) = wrap_reference fnt maxWidth [w] rest.
Proof. simpl. now rewrite andb_false_r. Qed.

Lemma wrap_reference_concat (words cur : list string) :
  concat (wrap_reference fnt maxWidth cur words) = (cur ++ words)%list.
Proof.
  revert cur. induction words as [| w rest IH]; intros cur; simpl.
  - reflexivity.
  - destruct (_ && _); simpl; rewrite IH; [reflexivity |].
    now rewrite <- app_assoc.
Qed.

Lemma wrap_reference_length (words cur : list string) :
  1 <= length (wrap_reference fnt maxWidth cur words).
Proof.
  revert cur. induction words as [| w rest IH]; intros cur; simpl; [lia |].
  destruct (_ && _); simpl; [lia | apply IH].
Qed.

(** No emitted line is without a word. *)
Lemma wrap_reference_groups (words cur : list string) :
  cur <> [] \/ words <> [] ->
  Forall (fun g => g <> []) (wrap_reference fnt maxWidth cur words).
Proof.
  revert cur. induction words as [| w rest IH]; intros cur Hne; simpl.
  - destruct Hne as [Hcur | []]; [| congruence]. now constructor.
  - destruct (_ && has_word cur) eqn:Hbreak.
    + apply andb_true_iff in Hbreak as [_ Hcur].
      constructor; [now apply has_word_true |].
      apply IH. left. discriminate.
    + apply IH. left. destruct cur; discriminate.
Qed.

(** A line that holds a word and is followed by further words is
    broken at least once when all of it is too wide. *)
Lemma wrap_reference_breaks (words cur : list string) :
  cur <> [] -> words <> [] ->
  (maxWidth < measureText_width fnt (line_of_words (cur ++ words)%list))%Q ->
  2 <= length (wrap_reference fnt maxWidth cur words).
Proof.
  revert cur. induction words as [| w rest IH]; intros cur Hcur Hwords Hwide;
    [congruence |].
  simpl. destruct (would_exceed fnt maxWidth cur w && has_word cur) eqn:Hbreak.
  - simpl. pose proof (wrap_reference_length rest [w]). lia.
  - apply andb_false_iff in Hbreak as [Hfit | Hnone].
    + destruct rest as [| w' rest'].
      * apply Qgt_bool_false in Hfit. exfalso. exact (Qlt_not_le _ _ Hwide Hfit).
      * apply IH; [destruct cur; discriminate | discriminate |].
        now rewrite <- app_assoc.
    + apply has_word_true in Hcur. congruence.
Qed.

(** When every word fits on a line of its own, every emitted line
    fits. *)
Lemma wrap_reference_fits (words cur : list string) :
  (cur <> [] -> (measureText_width fnt (line_of_words cur) <= maxWidth)%Q) ->
  Forall (fun w => (measureText_width fnt (w +:+ " ") <= maxWidth)%Q) words ->
  Forall (fun g => g <> [] ->
                   (measureText_width fnt (line_of_words g) <= maxWidth)%Q)
         (wrap_reference fnt maxWidth cur words).
Proof.
  revert cur. induction words as [| w rest IH]; intros cur Hcur Hwords; simpl.
  - constructor; [exact Hcur | constructor].
  - apply Forall_cons in Hwords as [Hw Hrest].
    destruct (would_exceed fnt maxWidth cur w && has_word cur) eqn:Hbreak.
    + constructor; [exact Hcur |].
      apply IH; [| exact Hrest].
      intros _. simpl. now rewrite append_empty_r.
    + apply IH; [| exact Hrest]. intros _.
      apply andb_false_iff in Hbreak as [Hfit | Hnone].
      * now apply Qgt_bool_false in Hfit.
      * destruct cur; [| discriminate].
        simpl. now rewrite append_empty_r.
Qed.

End ReferenceFacts.

Lemma trimEnd_append_space (s : string) :
  JSString.trimEnd (s +:+ " ") = JSString.trimEnd s.
Proof.
  induction s as [| c s IH]; [reflexivity |].
  rewrite append_String. cbn [JSString.trimEnd]. now rewrite IH.
Qed.

Lemma trim_append_space (s : string) : JSString.trim (s +:+ " ") = JSString.trim s.
Proof.
  unfold JSString.trim. induction s as [| c s IH]; [reflexivity |].
  rewrite append_String. cbn [JSString.trimStart].
  destruct (JSString.is_whitespace c); [exact IH |].
  rewrite <- append_String. apply trimEnd_append_space.
Qed.

Section LineWidths.
Context {browser : Platform} {laws : MeasureLaws browser}.
Variables (fnt : css_font) (maxWidth : Q).

(** A line of one word is drawn as the word trimmed; a line of more
    words was measured when its last word was added. *)
Lemma drawn_line_fits (cur : list string) :
  cur <> [] ->
  ((2 <= length cur)%nat ->
   (measureText_width fnt (line_of_words cur) <= maxWidth)%Q) ->
  Forall (fun w => (measureText_width fnt w <= maxWidth)%Q) cur ->
  (measureText_width fnt (drawn_line cur) <= maxWidth)%Q.
Proof.
  intros Hne Hline Hwords. unfold drawn_line.
  destruct cur as [| w [| w' rest]]; [congruence | |].
  - cbn [line_of_words]. rewrite append_empty_r, trim_append_space.
    eapply Qle_trans; [apply measure_trim_le |].
    now apply List.Forall_inv in Hwords.
  - eapply Qle_trans; [apply measure_trim_le |].
    apply Hline. cbn [length]. lia.
Qed.

(** When no word is wider than [maxWidth], no line drawn is: a line is
    started with a word unmeasured, and every further word is added only
    if the line still fits. *)
Lemma wrap_reference_drawn_fit (words cur : list string) :
  cur <> [] \/ words <> [] ->
  ((2 <= length cur)%nat ->
   (measureText_width fnt (line_of_words cur) <= maxWidth)%Q) ->
  Forall (fun w => (measureText_width fnt w <= maxWidth)%Q) (cur ++ words) ->
  Forall (fun g => (measureText_width fnt (drawn_line g) <= maxWidth)%Q)
         (wrap_reference fnt maxWidth cur words).
Proof.
  revert cur. induction words as [| w rest IH]; intros cur Hne Hline Hwords.
  - rewrite app_nil_r in Hwords. destruct Hne as [Hcur | Hnil]; [| congruence].
    cbn [wrap_reference]. constructor; [| constructor].
    now apply drawn_line_fits.
  - cbn [wrap_reference].
    destruct (would_exceed fnt maxWidth cur w && has_word cur) eqn:Hbreak.
    + apply andb_true_iff in Hbreak as [_ Hcur]. apply has_word_true in Hcur.
      apply List.Forall_app in Hwords as [Hcurw Hrestw].
      constructor; [now apply drawn_line_fits |].
      apply IH; [left; discriminate | cbn [length]; lia | exact Hrestw].
    + assert (Hw : (cur ++ [w])%list <> []) by (destruct cur; discriminate).
      apply IH; [left; exact Hw | | now rewrite <- app_assoc].
      intros Hlen. rewrite length_app in Hlen. cbn [length] in Hlen.
      assert (Hcur : has_word cur = true)
        by (destruct cur; [simpl in Hlen; lia | reflexivity]).
      rewrite Hcur, andb_true_r in Hbreak.
      now apply Qgt_bool_false in Hbreak.
Qed.

End LineWidths.


(** ** The mock QR box *)

Lemma draws_nil (ctx : Context2D) : draws [] ctx = ctx.
Proof. destruct ctx. unfold draws. simpl. now rewrite app_nil_r. Qed.

Lemma draws_draws (a b : list draw_op) (ctx : Context2D) :
  draws b (draws a ctx) = draws (a ++ b) ctx.
Proof. unfold draws. simpl. now rewrite app_assoc. Qed.

(** Cells picked by a test, drawn in the order of two nested loops. *)
Lemma nested_loops_filter {A B C : Type} (p : A * B -> bool) (r : A * B -> C)
      (rows : list A) (cols : list B) :
  flat_map (fun i => flat_map (fun j => if p (i, j) then [r (i, j)] else []) cols) rows
  = map r (List.filter p (list_prod rows cols)).
Proof.
  induction rows as [| i rows IH]; [reflexivity |].
  simpl. rewrite List.filter_app, map_app, IH. f_equal.
  clear IH. induction cols as [| j cols IH]; [reflexivity |].
  simpl. destruct (p (i, j)); simpl; now rewrite IH.
Qed.

Lemma fold_left_draws {A : Type} (f : Context2D -> A -> Context2D)
      (g : fill_style -> A -> list draw_op) (l : list A) :
  (forall ctx a, f ctx a = draws (g (fillStyle (state ctx)) a) ctx) ->
  forall ctx, fold_left f l ctx = draws (flat_map (g (fillStyle (state ctx))) l) ctx.
Proof.
  intros Hf. induction l as [| a l IH]; intros ctx; simpl.
  - now rewrite draws_nil.
  - rewrite IH, Hf, draws_draws. reflexivity.
Qed.

Section MockQRFacts.
Context {browser : Platform}.
Variables (x y step : Q).

Lemma drawMockQR_cell_draws (i j : nat) (ctx : Context2D) :
  drawMockQR_cell x y step i j ctx
  = draws (if cell_is_dark (i, j)
           then [cell_command x y step (fillStyle (state ctx)) (i, j)] else []) ctx.
Proof.
  unfold drawMockQR_cell, cell_is_dark. simpl fst. simpl snd.
  destruct (_ =? _)%nat; [reflexivity | now rewrite draws_nil].
Qed.

Lemma drawMockQR_pattern_draws (ctx : Context2D) :
  drawMockQR_pattern x y step ctx
  = draws (map (cell_command x y step (fillStyle (state ctx))) checkerboard_cells) ctx.
Proof.
  unfold drawMockQR_pattern, checkerboard_cells.
  rewrite (fold_left_draws _
             (fun style i =>
                flat_map (fun j => if cell_is_dark (i, j)
                                   then [cell_command x y step style (i, j)] else [])
                         (seq 0 6))).
  - now rewrite nested_loops_filter.
  - intros c i.
    rewrite (fold_left_draws _
               (fun style j => if cell_is_dark (i, j)
                               then [cell_command x y step style (i, j)] else [])).
    + reflexivity.
    + intros c' j. apply drawMockQR_cell_draws.
Qed.

End MockQRFacts.

(** The box is the pattern, drawn after what was there, and the drawing
    state is restored. *)
Lemma drawMockQR_commands {browser : Platform} (ctx : Context2D) (text : string)
      (x y size : Q) :
  drawMockQR ctx text x y size
  = mkContext2D (state ctx) (saved ctx) (drawn ctx ++ mockQR_commands x y size).
Proof.
  unfold drawMockQR.
  set (c := set_fillStyle (Color "#0b1220") _) at 1.
  rewrite (drawMockQR_pattern_draws x y (Math_floor ((size - 24) / 6)) c).
  subst c. destruct ctx as [st sv dr].
  unfold ctx_restore, ctx_save, fillRect, set_fillStyle, emit, draws, mockQR_commands.
  cbn [state saved drawn fillStyle font textAlign].
  apply (f_equal (mkContext2D st sv)).
  rewrite <- !app_assoc. cbn [app]. reflexivity.
Qed.


(** ** Case mapping and trimming *)

Lemma upper_alnum_char (c : ascii) :
  JSString.is_upper_alnum c = true ->
  JSString.upper_char c = c
  /\ JSString.upper_char (JSString.lower_char c) = c
  /\ JSString.is_whitespace c = false
  /\ JSString.is_whitespace (JSString.lower_char c) = false.
Proof.
  destruct c as [[] [] [] [] [] [] [] []]; vm_compute; intros H;
    try discriminate H; repeat split.
Qed.

Lemma lower_alnum_char (c : ascii) :
  JSString.is_lower_alnum c = true ->
  JSString.is_upper_alnum (JSString.upper_char c) = true
  /\ JSString.lower_char (JSString.upper_char c) = c.
Proof.
  destruct c as [[] [] [] [] [] [] [] []]; vm_compute; intros H;
    try discriminate H; repeat split.
Qed.

Lemma trimEnd_id (s : string) :
  JSString.all_chars (fun c => negb (JSString.is_whitespace c)) s = true ->
  JSString.trimEnd s = s.
Proof.
  induction s as [| c s IH]; [reflexivity |].
  simpl. intros H. apply andb_true_iff in H as [Hc Hs].
  rewrite (IH Hs). apply negb_true_iff in Hc. rewrite Hc.
  now destruct s.
Qed.

Lemma trim_id (s : string) :
  JSString.all_chars (fun c => negb (JSString.is_whitespace c)) s = true ->
  JSString.trim s = s.
Proof.
  intros H. unfold JSString.trim.
  replace (JSString.trimStart s) with s; [now apply trimEnd_id |].
  destruct s as [| c s]; [reflexivity |].
  simpl in *. apply andb_true_iff in H as [Hc _].
  apply negb_true_iff in Hc. now rewrite Hc.
Qed.

Lemma all_chars_impl (p q : ascii -> bool) (s : string) :
  (forall c, p c = true -> q c = true) ->
  JSString.all_chars p s = true -> JSString.all_chars q s = true.
Proof.
  intros Hpq. induction s as [| c s IH]; [reflexivity |].
  simpl. rewrite !andb_true_iff. intros [Hc Hs]. auto.
Qed.

Lemma all_chars_map (p : ascii -> bool) (f : ascii -> ascii) (s : string) :
  JSString.all_chars p (JSString.map_chars f s)
  = JSString.all_chars (fun c => p (f c)) s.
Proof. induction s as [| c s IH]; [reflexivity |]. simpl. now rewrite IH. Qed.

Lemma map_chars_id_on (p : ascii -> bool) (f : ascii -> ascii) (s : string) :
  (forall c, p c = true -> f c = c) ->
  JSString.all_chars p s = true -> JSString.map_chars f s = s.
Proof.
  intros Hf. induction s as [| c s IH]; [reflexivity |].
  simpl. rewrite andb_true_iff. intros [Hc Hs]. now rewrite (Hf c Hc), (IH Hs).
Qed.

Lemma map_chars_map_chars (f g : ascii -> ascii) (s : string) :
  JSString.map_chars f (JSString.map_chars g s)
  = JSString.map_chars (fun c => f (g c)) s.
Proof. induction s as [| c s IH]; [reflexivity |]. simpl. now rewrite IH. Qed.

Lemma or_else_empty (s : string) : JSString.or_else s EmptyString = s.
Proof. now destruct s. Qed.

(** The query the search handler compares with, for a code in upper
    case and for its lower-cased version. *)
Lemma search_query_exact (code : string) :
  JSString.all_chars JSString.is_upper_alnum code = true ->
  JSString.toUpperCase (JSString.trim (JSString.or_else code EmptyString)) = code.
Proof.
  intros H. rewrite or_else_empty, trim_id.
  - apply (map_chars_id_on JSString.is_upper_alnum); [| exact H].
    intros c Hc. apply (upper_alnum_char c Hc).
  - revert H. apply all_chars_impl. intros c Hc.
    apply negb_true_iff. apply (upper_alnum_char c Hc).
Qed.

Lemma search_query_lower (code : string) :
  JSString.all_chars JSString.is_upper_alnum code = true ->
  JSString.toUpperCase
    (JSString.trim (JSString.or_else (JSString.toLowerCase code) EmptyString)) = code.
Proof.
  intros H. rewrite or_else_empty, trim_id.
  - unfold JSString.toUpperCase, JSString.toLowerCase.
    rewrite map_chars_map_chars.
    apply (map_chars_id_on JSString.is_upper_alnum); [| exact H].
    intros c Hc. apply (upper_alnum_char c Hc).
  - unfold JSString.toLowerCase. rewrite all_chars_map.
    revert H. apply all_chars_impl. intros c Hc.
    apply negb_true_iff. apply (upper_alnum_char c Hc).
Qed.

Lemma find_some_first {A : Type} (p : A -> bool) (l : list A) (a : A) :
  In a l -> p a = true -> exists b, List.find p l = Some b /\ p b = true /\ In b l.
Proof.
  induction l as [| x l IH]; [intros [] |].
  intros Hin Hp. simpl. destruct (p x) eqn:Hx.
  - exists x. repeat split; [exact Hx | now left].
  - destruct Hin as [-> | Hin]; [congruence |].
    destruct (IH Hin Hp) as (b & Hb & Hpb & Hbl).
    exists b. repeat split; [exact Hb | exact Hpb | now right].
Qed.

Lemma NoDup_map_inj {A B : Type} (f : A -> B) (l : list A) (a b : A) :
  List.NoDup (map f l) -> In a l -> In b l -> f a = f b -> a = b.
Proof.
  induction l as [| x l IH]; [intros _ [] |].
  simpl. intros Hnd Ha Hb Hf. inversion Hnd as [| ? ? Hx Hnd']; subst.
  destruct Ha as [-> | Ha], Hb as [-> | Hb]; auto.
  - exfalso. apply Hx. rewrite Hf. now apply in_map.
  - exfalso. apply Hx. rewrite <- Hf. now apply in_map.
Qed.


(** ** Tokens *)

Lemma digit_char_table :
  forallb (fun k => JSString.is_lower_alnum (digit_char k)) (seq 0 36) = true
  /\ forallb (fun a => forallb (fun b => implb (Ascii.eqb (digit_char a) (digit_char b))
                                              (a =? b)%nat) (seq 0 36)) (seq 0 36) = true.
Proof. split; vm_compute; reflexivity. Qed.

Lemma digit_char_mod (k : nat) : digit_char k = digit_char (k mod 36).
Proof. unfold digit_char. now rewrite Nat.Div0.mod_mod. Qed.

Lemma digit_char_lower_alnum (k : nat) : JSString.is_lower_alnum (digit_char k) = true.
Proof.
  rewrite digit_char_mod.
  destruct digit_char_table as [H _]. rewrite forallb_forall in H.
  apply H, in_seq. pose proof (Nat.mod_upper_bound k 36). lia.
Qed.

Lemma digit_char_inj (a b : nat) :
  digit_char a = digit_char b -> a mod 36 = b mod 36.
Proof.
  rewrite (digit_char_mod a), (digit_char_mod b). intros Heq.
  destruct digit_char_table as [_ H]. rewrite forallb_forall in H.
  assert (Ha : In (a mod 36) (seq 0 36))
    by (apply in_seq; pose proof (Nat.mod_upper_bound a 36); lia).
  assert (Hb : In (b mod 36) (seq 0 36))
    by (apply in_seq; pose proof (Nat.mod_upper_bound b 36); lia).
  specialize (H _ Ha). rewrite forallb_forall in H. specialize (H _ Hb).
  rewrite Heq, Ascii.eqb_refl in H. simpl in H. now apply Nat.eqb_eq.
Qed.

Lemma digits_string_length (ds : list nat) :
  String.length (digits_string ds) = length ds.
Proof. induction ds as [| d ds IH]; [reflexivity |]. simpl. now rewrite IH. Qed.

Lemma digits_string_lower_alnum (ds : list nat) :
  JSString.all_chars JSString.is_lower_alnum (digits_string ds) = true.
Proof.
  induction ds as [| d ds IH]; [reflexivity |].
  simpl. now rewrite digit_char_lower_alnum, IH.
Qed.

Lemma digits_string_inj (ds ds' : list nat) :
  digits_string ds = digits_string ds' <->
  map (fun k => k mod 36) ds = map (fun k => k mod 36) ds'.
Proof.
  revert ds'. induction ds as [| d ds IH]; intros [| d' ds']; cbn [digits_string map];
    try (split; [discriminate | discriminate]); [tauto |].
  split.
  - intros H. injection H as Hd Hds. f_equal; [now apply digit_char_inj | now apply IH].
  - intros H.
    assert (Hd : d mod 36 = d' mod 36) by congruence.
    assert (Hds : map (fun k => k mod 36) ds = map (fun k => k mod 36) ds') by congruence.
    f_equal.
    + now rewrite (digit_char_mod d), (digit_char_mod d'), Hd.
    + now apply IH.
Qed.

Lemma substring_digits (len : nat) (ds : list nat) :
  substring 0 len (digits_string ds) = digits_string (firstn len ds).
Proof.
  revert ds. induction len as [| len IH]; intros [| d ds]; simpl; try reflexivity.
  now rewrite IH.
Qed.

(** What [uid] cuts out of a drawn number. *)
Lemma uid_token (len : nat) (d : draw) :
  JSString.slice (toString36 d) 2 (2 + len) = digits_string (firstn len d).
Proof.
  unfold JSString.slice. replace (2 + len - 2) with len by lia.
  destruct d as [| k d].
  - simpl. destruct len; reflexivity.
  - change (toString36 (k :: d)) with (String "0" (String "." (digits_string (k :: d)))).
    cbn [substring]. apply substring_digits.
Qed.

Lemma map_chars_length (f : ascii -> ascii) (s : string) :
  String.length (JSString.map_chars f s) = String.length s.
Proof. induction s as [| c s IH]; [reflexivity |]. simpl. now rewrite IH. Qed.

Lemma toUpperCase_inj (s t : string) :
  JSString.all_chars JSString.is_lower_alnum s = true ->
  JSString.all_chars JSString.is_lower_alnum t = true ->
  JSString.toUpperCase s = JSString.toUpperCase t -> s = t.
Proof.
  intros Hs Ht Heq.
  apply (f_equal JSString.toLowerCase) in Heq.
  unfold JSString.toUpperCase, JSString.toLowerCase in Heq.
  rewrite !map_chars_map_chars in Heq.
  rewrite (map_chars_id_on JSString.is_lower_alnum) in Heq;
    [| intros c Hc; apply (lower_alnum_char c Hc) | exact Hs].
  rewrite (map_chars_id_on JSString.is_lower_alnum) in Heq;
    [| intros c Hc; apply (lower_alnum_char c Hc) | exact Ht].
  exact Heq.
Qed.

Section FactoryFacts.
Context {browser : Platform}.

(** The record [makeCertificate] builds, and the world it leaves. *)
Lemma makeCertificate_run (p : payload) (w : World) :
  makeCertificate p w
  = (Normal
       {| id := digits_string (firstn 12 (random_source w (random_calls w)));
          verificationCode :=
            JSString.toUpperCase
              (digits_string (firstn 16 (random_source w (S (random_calls w)))));
          name := p_name p;
          title := p_title p;
          issuer := p_issuer p;
          date := p_date p;
          note := p_note p;
          createdAt := clock w (clock_reads w) |},
     set_clock_reads (S (clock_reads w))
       (set_random_calls (S (S (random_calls w))) w)).
Proof.
  unfold makeCertificate, uid, nowISO, bind, ret, Math_random, Date_now_toISOString.
  cbn [random_source random_calls clock clock_reads set_random_calls set_clock_reads
       localStorage console].
  rewrite !uid_token. reflexivity.
Qed.

End FactoryFacts.


(** ** The handlers *)

Lemma setItem_returns_storage (k v : string) (w w' : World) :
  localStorage w' = localStorage w ->
  returns (localStorage_setItem k v w') = returns (localStorage_setItem k v w).
Proof.
  intros Heq. unfold returns, localStorage_setItem. rewrite Heq.
  destruct (ls_denied (localStorage w)); [reflexivity |].
  destruct (_ <=? _)%nat; reflexivity.
Qed.

Lemma filter_keeps_order {A : Type} (p : A -> bool) (l : list A) :
  List.filter p l `sublist_of` l.
Proof.
  induction l as [| a l IH]; simpl; [constructor |].
  destruct (p a); now constructor.
Qed.

Lemma filter_all {A : Type} (p : A -> bool) (l : list A) :
  (forall a, In a l -> p a = true) -> List.filter p l = l.
Proof.
  induction l as [| a l IH]; [reflexivity |].
  intros H. simpl. rewrite (H a (or_introl eq_refl)), IH; [reflexivity |].
  intros b Hb. apply H. now right.
Qed.

Section HandlerFacts.
Context {browser : Platform}.

(** [storage.save] never throws: what follows it always runs. *)
Lemma storage_save_then {A : Type} (records : list certificate) (a : A) (w : World) :
  bind (storage_save records) (fun _ => ret a) w
  = (Normal a, world_after (storage_save records w)).
Proof.
  unfold bind, world_after.
  pose proof (storage_save_returns records w) as Hs. unfold result in Hs.
  destruct (storage_save records w) as [r w']. simpl in Hs. now subst r.
Qed.

(** The run of [_handleGenerateAndSave] on a form with a name. *)
Lemma handleGenerateAndSave_run (form : form_values) (this : CertificateModule)
      (w : World) :
  JSString.truthy (JSString.trim (inputName form)) = true ->
  exists (cert : certificate) (w1 : World),
    _handleGenerateAndSave form this w
    = (Normal {| certList := cert :: certList this;
                 currentPreview := Some cert;
                 canvas := option_map (drawCertificateToCanvas cert) (canvas this) |},
       world_after (storage_save (cert :: certList this) w1))
    /\ localStorage w1 = localStorage w
    /\ console w1 = console w
    /\ name cert = JSString.trim (inputName form).
Proof.
  intros Hname. unfold _handleGenerateAndSave.
  cbn [p_name]. rewrite Hname. cbn [negb].
  destruct (JSString.truthy (inputDate form)).
  - unfold bind at 1. unfold ret at 1.
    unfold bind at 1. rewrite makeCertificate_run.
    rewrite storage_save_then.
    eexists. eexists. split; [reflexivity |]. repeat split.
  - unfold bind at 1. unfold bind at 1. unfold Date_now_toISOString, ret at 1.
    unfold bind at 1. rewrite makeCertificate_run.
    rewrite storage_save_then.
    eexists. eexists. split; [reflexivity |]. repeat split.
Qed.

Lemma btnDelete_run (data_id : string) (this : CertificateModule) (w : World) :
  btnDelete_click data_id true this w
  = (Normal {| certList := List.filter (fun c => negb (String.eqb (id c) data_id))
                                       (certList this);
               currentPreview := currentPreview this;
               canvas := canvas this |},
     world_after
       (storage_save (List.filter (fun c => negb (String.eqb (id c) data_id))
                                  (certList this)) w)).
Proof.
  unfold btnDelete_click. cbn [negb]. apply storage_save_then.
Qed.

End HandlerFacts.


(** ** The reference font *)

Lemma length_trimStart_le (s : string) :
  String.length (JSString.trimStart s) <= String.length s.
Proof.
  induction s as [| c s IH]; [reflexivity |].
  simpl. destruct (JSString.is_whitespace c); simpl; lia.
Qed.

Lemma length_trimEnd_le (s : string) :
  String.length (JSString.trimEnd s) <= String.length s.
Proof.
  induction s as [| c s IH]; [reflexivity |].
  simpl. destruct (JSString.trimEnd s) eqn:E.
  - destruct (JSString.is_whitespace c); simpl; lia.
  - simpl in *. lia.
Qed.

Lemma length_trim_le (s : string) :
  String.length (JSString.trim s) <= String.length s.
Proof.
  unfold JSString.trim.
  pose proof (length_trimEnd_le (JSString.trimStart s)).
  pose proof (length_trimStart_le s). lia.
Qed.

Lemma fixed_pitch_width_le (f : css_font) (s t : string) :
  String.length s <= String.length t ->
  (fixed_pitch_width f s <= fixed_pitch_width f t)%Q.
Proof.
  intros H. unfold fixed_pitch_width. rewrite <- Zle_Qle. lia.
Qed.

#[export] Instance reference_measure_laws : MeasureLaws reference_platform.
Proof.
  constructor.
  - intros f s. apply fixed_pitch_width_le, length_trim_le.
  - intros f s t. apply fixed_pitch_width_le. rewrite length_append. lia.
Qed.

(** * The claims of the specification *)

(** ** C1: save then load *)

(** C1, as amended.  For every list of certificates, the empty list
    included, when the write of [storage.save] goes through (storage is
    accessible and the text fits the quota), [storage.load] afterwards
    returns a value deep-equal to the list. *)
Theorem save_load_roundtrip {browser : Platform} {laws : JSONLaws browser}
        (records : list certificate) (w : World) :
  returns (localStorage_setItem STORAGE_KEY (JSON_stringify (json_of_list records)) w) = true ->
  result (storage_load (world_after (storage_save records w)))
    = Normal (json_of_list records).
Proof. apply save_then_load. Qed.

Lemma save_load_roundtrip_witness :
  returns (localStorage_setItem STORAGE_KEY (JSON_stringify (json_of_list [luis; ana]))
                                (sample_world 5000)) = true
  /\ result (storage_load (world_after (storage_save [luis; ana] (sample_world 5000))))
     = Normal (json_of_list [luis; ana]).
Proof.
  split; [vm_compute; reflexivity |].
  apply save_load_roundtrip. vm_compute. reflexivity.
Defined.

(** C1 as stated fails: with a quota of 100 characters the record of Ana
    does not fit, [save] logs the error and returns, and [load] finds the
    slot as it was, absent. *)
Lemma save_load_over_quota :
  result (storage_load (world_after (storage_save [ana] (sample_world 100))))
    = Normal (JArray [])
  /\ result (storage_load (world_after (storage_save [ana] (sample_world 100))))
     <> Normal (json_of_list [ana]).
Proof. split; vm_compute; [reflexivity | discriminate]. Qed.

(** ** C2: the lines of the word wrap *)

(** C2, as amended.  A text of at least two words that is wider than
    [maxWidth] is drawn on more than one line; when every word fits within
    [maxWidth], so does every line drawn; and the lines are made of whole
    words: they are the trimmed texts of consecutive groups of the
    words. *)
Theorem wrapText_lines_fit {browser : Platform} {laws : MeasureLaws browser}
        (ctx : Context2D) (text : string) (x y maxWidth lineHeight : Q) :
  let measure := measureText_width (font (state ctx)) in
  let words := JSString.split_space text in
  let lines := wrapText_lines ctx text x y maxWidth lineHeight in
  (2 <= length words -> (maxWidth < measure text)%Q -> 2 <= length lines)
  /\ ((forall w, In w words -> (measure w <= maxWidth)%Q) ->
      forall l, In l lines -> (measure l <= maxWidth)%Q)
  /\ exists groups : list (list string),
       concat groups = words
       /\ Forall (fun g => g <> []) groups
       /\ lines = map drawn_line groups.
Proof.
  intros measure words lines.
  assert (Hlines : lines = map drawn_line
                     (wrap_reference (font (state ctx)) maxWidth [] words))
    by apply wrapText_lines_reference.
  split; [| split].
  - intros Hwords Hwide. rewrite Hlines, length_map.
    destruct words as [| w0 [| w1 rest]] eqn:E; simpl in Hwords; try lia.
    rewrite wrap_reference_first.
    apply wrap_reference_breaks; [discriminate | discriminate |].
    change ([w0] ++ w1 :: rest)%list with (w0 :: w1 :: rest).
    rewrite <- E. unfold words. rewrite line_of_split.
    eapply Qlt_le_trans; [exact Hwide | apply measure_prefix_le].
  - intros Hfit l Hl. rewrite Hlines in Hl.
    apply in_map_iff in Hl as (g & <- & Hg).
    assert (Hall : Forall (fun g => (measure (drawn_line g) <= maxWidth)%Q)
                     (wrap_reference (font (state ctx)) maxWidth [] words)).
    { apply wrap_reference_drawn_fit.
      - right. apply split_space_nonempty.
      - cbn [length]. lia.
      - cbn [app]. apply List.Forall_forall. exact Hfit. }
    rewrite List.Forall_forall in Hall. now apply Hall.
  - exists (wrap_reference (font (state ctx)) maxWidth [] words).
    split; [apply wrap_reference_concat |]. split; [| exact Hlines].
    apply wrap_reference_groups. right. apply split_space_nonempty.
Qed.

Lemma wrapText_lines_fit_witness :
  (880 < measureText_width "18px Inter, Arial" (repeat_char "a" 88 +:+ " "))%Q
  /\ 2 <= length (wrapText_lines note_context two_wide_words 160 440 880 28)
  /\ forall l, In l (wrapText_lines note_context two_wide_words 160 440 880 28) ->
               (measureText_width "18px Inter, Arial" l <= 880)%Q.
Proof.
  destruct (wrapText_lines_fit note_context two_wide_words 160 440 880 28)
    as (Hmore & Hfit & _).
  split; [vm_compute; reflexivity |]. split.
  - apply Hmore; [apply Nat.leb_le | ]; vm_compute; reflexivity.
  - apply Hfit. apply List.Forall_forall. vm_compute.
    repeat (constructor; [discriminate |]). constructor.
Defined.

(** C2 as stated fails: a note of one word a hundred letters long is
    wider than the 880 pixels of the column, and it is drawn on one line,
    1000 pixels wide. *)
Lemma wrapText_long_word :
  (880 < measureText_width "18px Inter, Arial" long_word)%Q
  /\ wrapText_lines note_context long_word 160 440 880 28 = [long_word].
Proof. split; vm_compute; reflexivity. Qed.

(** ** C3: the word wrap and its reference *)


(** ** C4: a generated record goes first *)

(** C4, as amended.  For every module, every world and every form with a
    name, [_handleGenerateAndSave] puts the new record at the head of the
    list in memory and saves the list; when that write goes through, a
    load afterwards returns the list with the new record first. *)
Theorem generate_puts_record_first {browser : Platform} {laws : JSONLaws browser}
        (form : form_values) (this : CertificateModule) (w : World) :
  JSString.truthy (JSString.trim (inputName form)) = true ->
  exists (cert : certificate) (this' : CertificateModule) (w' : World),
    _handleGenerateAndSave form this w = (Normal this', w')
    /\ certList this' = cert :: certList this
    /\ (returns (localStorage_setItem STORAGE_KEY
                   (JSON_stringify (json_of_list (cert :: certList this))) w) = true ->
        result (storage_load w') = Normal (json_of_list (cert :: certList this))).
Proof.
  intros Hname.
  destruct (handleGenerateAndSave_run form this w Hname)
    as (cert & w1 & Hrun & Hls & _ & _).
  exists cert. eexists. eexists. split; [exact Hrun |]. split; [reflexivity |].
  intros Hok. apply save_then_load.
  now rewrite (setItem_returns_storage _ _ w w1 Hls).
Qed.

Lemma generate_puts_record_first_witness :
  JSString.truthy (JSString.trim (inputName ana_form)) = true
  /\ exists (this' : CertificateModule) (w' : World),
       _handleGenerateAndSave ana_form new_module (sample_world 5000) = (Normal this', w')
       /\ certList this' = [ana]
       /\ result (storage_load w') = Normal (json_of_list [ana]).
Proof.
  split; [reflexivity |].
  destruct (generate_puts_record_first ana_form new_module (sample_world 5000) eq_refl)
    as (cert & this' & w' & Hrun & Hlist & Hload).
  assert (Hcert : cert = ana).
  { assert (Hthis : certList this' = [ana])
      by (vm_compute in Hrun; injection Hrun as <- _; reflexivity).
    rewrite Hthis in Hlist. now injection Hlist. }
  subst cert. exists this', w'.
  split; [exact Hrun |]. split; [exact Hlist |].
  apply Hload. vm_compute. reflexivity.
Defined.

(** The scenario of the specification: the form of Ana gives a record
    with the five fields as typed, and a load afterwards returns that
    record alone. *)
Example generate_ana_scenario :
  option_map certList
    (returned (_handleGenerateAndSave ana_form new_module (sample_world 5000)))
    = Some [ana]
  /\ result (storage_load
               (world_after (_handleGenerateAndSave ana_form new_module (sample_world 5000))))
     = Normal (json_of_list [ana]).
Proof. split; vm_compute; reflexivity. Qed.

(** C4 as stated fails: with a quota of 100 characters the record is put
    first in memory, the write fails, and a load afterwards returns the
    empty list. *)
Lemma generate_over_quota :
  option_map certList
    (returned (_handleGenerateAndSave ana_form new_module (sample_world 100)))
    = Some [ana]
  /\ result (storage_load
               (world_after (_handleGenerateAndSave ana_form new_module (sample_world 100))))
     = Normal (JArray []).
Proof. split; vm_compute; reflexivity. Qed.

(** ** C5: deleting a record *)

(** C5, as amended.  For every module, every world and every id, the
    confirmed delete handler keeps in memory the records with another id,
    unchanged and in their order, keeps the whole list when no record has
    the id, and saves the result in either case; when that write goes
    through, the slot holds the result and a load afterwards returns it,
    so it contains no record with the id. *)
Theorem delete_removes_record {browser : Platform} {laws : JSONLaws browser}
        (data_id : string) (this : CertificateModule) (w : World) :
  let kept := List.filter (fun c => negb (String.eqb (id c) data_id)) (certList this) in
  exists (this' : CertificateModule) (w' : World),
    btnDelete_click data_id true this w = (Normal this', w')
    /\ certList this' = kept
    /\ (forall c, In c kept <-> In c (certList this) /\ id c <> data_id)
    /\ kept `sublist_of` certList this
    /\ ((forall c, In c (certList this) -> id c <> data_id) -> kept = certList this)
    /\ (returns (localStorage_setItem STORAGE_KEY
                   (JSON_stringify (json_of_list kept)) w) = true ->
        result (storage_load w') = Normal (json_of_list kept)
        /\ ls_items (localStorage w') !! STORAGE_KEY
           = Some (JSON_stringify (json_of_list kept))).
Proof.
  intros kept. eexists. eexists.
  split; [apply btnDelete_run |]. split; [reflexivity |].
  split; [| split; [| split]].
  - intros c. unfold kept. rewrite List.filter_In, negb_true_iff, String.eqb_neq.
    reflexivity.
  - apply filter_keeps_order.
  - intros Hnone. apply filter_all. intros c Hc.
    apply negb_true_iff, String.eqb_neq. now apply Hnone.
  - intros Hok. split; [now apply save_then_load |].
    fold kept. rewrite (storage_save_written kept w Hok).
    unfold world_after. simpl. apply lookup_insert_eq.
Qed.

Lemma delete_removes_record_witness :
  exists (this' : CertificateModule) (w' : World),
    btnDelete_click "17u2" true (mkModule [luis; ana] None None) (sample_world 5000)
      = (Normal this', w')
    /\ certList this' = [luis]
    /\ result (storage_load w') = Normal (json_of_list [luis]).
Proof.
  destruct (delete_removes_record "17u2" (mkModule [luis; ana] None None)
                                  (sample_world 5000))
    as (this' & w' & Hrun & Hlist & _ & _ & _ & Hload).
  exists this', w'. split; [exact Hrun |]. split; [exact Hlist |].
  apply Hload. vm_compute. reflexivity.
Defined.

(** C5 as stated fails: the quota of 245 characters holds the record of
    Ana and no more.  After the records of Ana and of Luis are generated
    (the second write fails) and the record of Ana, id 17u2, is deleted,
    the list in memory holds Luis alone; it does not fit either, the slot
    stays as it was, and a load returns the record with id 17u2. *)
Lemma delete_over_quota :
  option_map certList (returned (generate_twice_delete_first (sample_world 245)))
    = Some [luis]
  /\ result (storage_load (world_after (generate_twice_delete_first (sample_world 245))))
     = Normal (json_of_list [ana])
  /\ id ana = "17u2".
Proof. repeat split; vm_compute; reflexivity. Qed.

(** ** C6: search by code *)

(** C6.  For every record in the list whose verification code is made of
    upper-case letters and digits, as the factory makes them, searching
    the lower-cased code gives the same result as searching the code; for
    a code that is not empty the result is a record with that code, and
    the record itself when the codes in the list are distinct. *)
Theorem search_ignores_case (this : CertificateModule) (c : certificate) :
  In c (certList this) ->
  JSString.all_chars JSString.is_upper_alnum (verificationCode c) = true ->
  btnSearch_click (JSString.toLowerCase (verificationCode c)) this
    = btnSearch_click (verificationCode c) this
  /\ (verificationCode c <> EmptyString ->
      exists found,
        btnSearch_click (verificationCode c) this = ValidCertificate found
        /\ verificationCode found = verificationCode c
        /\ (List.NoDup (map verificationCode (certList this)) -> found = c)).
Proof.
  intros Hin Hcode. unfold btnSearch_click.
  rewrite (search_query_lower _ Hcode), (search_query_exact _ Hcode).
  split; [reflexivity |].
  intros Hne. destruct (verificationCode c) as [| a code] eqn:E; [congruence |].
  cbn [JSString.truthy negb].
  destruct (find_some_first
              (fun c0 => String.eqb (verificationCode c0) (String a code))
              (certList this) c Hin) as (found & -> & Hfound & Hfin).
  - rewrite E. apply String.eqb_refl.
  - apply String.eqb_eq in Hfound.
    exists found. repeat split; [exact Hfound |].
    intros Hnd. apply (NoDup_map_inj verificationCode (certList this)); auto.
    now rewrite E.
Qed.

Lemma search_ignores_case_witness :
  In ana (certList (mkModule [luis; ana] None None))
  /\ JSString.all_chars JSString.is_upper_alnum (verificationCode ana) = true
  /\ btnSearch_click "27u2" (mkModule [luis; ana] None None)
     = btnSearch_click "27U2" (mkModule [luis; ana] None None).
Proof.
  assert (Hin : In ana (certList (mkModule [luis; ana] None None)))
    by (right; left; reflexivity).
  assert (Hcode : JSString.all_chars JSString.is_upper_alnum (verificationCode ana) = true)
    by reflexivity.
  split; [exact Hin |]. split; [exact Hcode |].
  exact (proj1 (search_ignores_case (mkModule [luis; ana] None None) ana Hin Hcode)).
Defined.

(** ** C7: the tokens of the factory *)

(** C7, as amended.  For all fields and every world, [makeCertificate]
    returns a record with the five fields as given; its id is printed
    from the first 12 base-36 digits of the first random number, in lower
    case, and its verification code from the first 16 digits of the
    second, in upper case: at most 12 and 16 alphanumeric characters,
    fewer when the number prints fewer digits, none for the number 0.  The
    ids, and the codes, of two records are equal exactly when those
    leading digits are. *)
Theorem makeCertificate_tokens {browser : Platform} (p p' : payload) (w w' : World) :
  let d_id := random_source w (random_calls w) in
  let d_code := random_source w (S (random_calls w)) in
  let d_id' := random_source w' (random_calls w') in
  let d_code' := random_source w' (S (random_calls w')) in
  exists cert cert' w1 w1',
    makeCertificate p w = (Normal cert, w1)
    /\ makeCertificate p' w' = (Normal cert', w1')
    /\ (name cert = p_name p /\ title cert = p_title p /\ issuer cert = p_issuer p
        /\ date cert = p_date p /\ note cert = p_note p)
    /\ id cert = digits_string (leading_digits 12 d_id)
    /\ id cert = JSString.slice (toString36 d_id) 2 14
    /\ verificationCode cert
       = JSString.toUpperCase (digits_string (leading_digits 16 d_code))
    /\ verificationCode cert
       = JSString.toUpperCase (JSString.slice (toString36 d_code) 2 18)
    /\ String.length (id cert) = Nat.min 12 (length d_id)
    /\ String.length (verificationCode cert) = Nat.min 16 (length d_code)
    /\ JSString.all_chars JSString.is_lower_alnum (id cert) = true
    /\ JSString.all_chars JSString.is_upper_alnum (verificationCode cert) = true
    /\ (id cert = EmptyString <-> d_id = [])
    /\ (verificationCode cert = EmptyString <-> d_code = [])
    /\ (id cert = id cert' <-> leading_digits 12 d_id = leading_digits 12 d_id')
    /\ (verificationCode cert = verificationCode cert'
        <-> leading_digits 16 d_code = leading_digits 16 d_code').
Proof.
  intros d_id d_code d_id' d_code'.
  assert (Hlead : forall len d,
             digits_string (leading_digits len d) = digits_string (firstn len d)).
  { intros len d. unfold leading_digits. apply digits_string_inj.
    rewrite map_map. apply map_ext. intros k. apply Nat.Div0.mod_mod. }
  do 4 eexists.
  split; [apply makeCertificate_run |]. split; [apply makeCertificate_run |].
  cbn [id verificationCode name title issuer date note].
  fold d_id d_code d_id' d_code'. clearbody d_id d_code d_id' d_code'.
  split; [repeat split |].
  split; [now rewrite Hlead |].
  split; [symmetry; exact (uid_token 12 d_id) |].
  split; [now rewrite Hlead |].
  split; [apply (f_equal JSString.toUpperCase); symmetry; exact (uid_token 16 d_code) |].
  split; [now rewrite digits_string_length, length_firstn |].
  split; [unfold JSString.toUpperCase;
          now rewrite map_chars_length, digits_string_length, length_firstn |].
  split; [apply digits_string_lower_alnum |].
  split.
  { unfold JSString.toUpperCase. rewrite all_chars_map.
    apply (all_chars_impl JSString.is_lower_alnum); [| apply digits_string_lower_alnum].
    intros c Hc. apply (lower_alnum_char c Hc). }
  split; [destruct d_id; simpl; split; congruence |].
  split; [destruct d_code; simpl; split; intros H; discriminate H || reflexivity |].
  split; [apply digits_string_inj |].
  unfold leading_digits. rewrite <- digits_string_inj. split.
  - apply toUpperCase_inj; apply digits_string_lower_alnum.
  - now intros ->.
Qed.

(** C7 as stated fails: the number 0 gives an empty id and an empty code;
    one half and one eighth give codes of one and of two characters; and
    a number drawn again gives the same id and the same code again. *)
Lemma makeCertificate_weak_tokens :
  option_map (fun c => (id c, verificationCode c))
             (returned (makeCertificate ana_payload (world_of_draws [[]; []])))
    = Some (EmptyString, EmptyString)
  /\ option_map verificationCode
       (returned (makeCertificate ana_payload (world_of_draws [[9]; [18]])))
     = Some "I"
  /\ option_map verificationCode
       (returned (makeCertificate ana_payload (world_of_draws [[9]; [4; 18]])))
     = Some "4I"
  /\ option_map (fun ab => (id (fst ab), id (snd ab),
                            verificationCode (fst ab), verificationCode (snd ab)))
       (returned (bind (makeCertificate ana_payload) (fun a =>
                  bind (makeCertificate ana_payload) (fun b => ret (a, b)))
                  (world_of_draws [[18]; [18]; [18]; [18]])))
     = Some ("i", "i", "I", "I").
Proof. repeat split; vm_compute; reflexivity. Qed.

(** ** C8: load *)

(** C8, as amended.  [storage.load] never throws and leaves the storage
    as it is.  When the slot is absent or holds the empty text it returns
    the empty list and logs nothing; when the slot holds text that is not
    JSON, or the storage cannot be read, it returns the empty list and
    logs one line; when the slot holds the text of a list of records it
    returns that list, in the order stored. *)
Theorem load_never_throws {browser : Platform} {laws : JSONLaws browser} (w : World) :
  let items := ls_items (localStorage w) in
  let denied := ls_denied (localStorage w) in
  returns (storage_load w) = true
  /\ localStorage (world_after (storage_load w)) = localStorage w
  /\ (denied = false ->
      items !! STORAGE_KEY = None \/ items !! STORAGE_KEY = Some EmptyString ->
      storage_load w = (Normal (JArray []), w))
  /\ (denied = false ->
      forall raw, items !! STORAGE_KEY = Some raw -> raw <> EmptyString -> JSON_parse raw = None ->
      storage_load w
      = (Normal (JArray []),
         set_console (console w ++ [("Storage read error", SyntaxError)]) w))
  /\ (denied = true ->
      storage_load w
      = (Normal (JArray []),
         set_console (console w ++ [("Storage read error", SecurityError)]) w))
  /\ (denied = false ->
      forall records,
        items !! STORAGE_KEY = Some (JSON_stringify (json_of_list records)) ->
        storage_load w = (Normal (json_of_list records), w)).
Proof.
  intros items denied. subst items denied.
  split; [apply storage_load_returns |].
  split; [apply storage_load_keeps_storage |].
  split; [| split; [| split]].
  - intros Hd Hslot. rewrite (storage_load_raw w "[]" Hd).
    + now rewrite parse_empty_array.
    + destruct Hslot as [-> | ->]; reflexivity.
  - intros Hd raw Hslot Hraw Hparse. rewrite (storage_load_raw w raw Hd).
    + now rewrite Hparse.
    + rewrite Hslot. now destruct raw.
  - apply storage_load_denied.
  - intros Hd records. now apply storage_load_stored.
Qed.

Lemma load_never_throws_witness :
  returns (storage_load (sample_world 5000)) = true
  /\ storage_load (sample_world 5000) = (Normal (JArray []), sample_world 5000).
Proof.
  destruct (load_never_throws (sample_world 5000)) as (Hret & _ & Hempty & _).
  split; [exact Hret |].
  apply Hempty; [reflexivity | left; vm_compute; reflexivity].
Defined.

(** C8 as stated fails: on an absent slot [load] returns the empty list
    and the console stays empty. *)
Lemma load_absent_logs_nothing :
  ls_items (localStorage (sample_world 5000)) !! STORAGE_KEY = None
  /\ result (storage_load (sample_world 5000)) = Normal (JArray [])
  /\ console (world_after (storage_load (sample_world 5000))) = [].
Proof. repeat split; vm_compute; reflexivity. Qed.

(** ** C9: a failed save *)

(** C9.  For every list of records, when the write of [storage.save]
    throws, [save] returns without throwing, the storage is as it was, and
    the console has one more line, the write error. *)
Theorem save_failure_is_logged {browser : Platform} (records : list certificate) (w : World) :
  returns (localStorage_setItem STORAGE_KEY (JSON_stringify (json_of_list records)) w) = false ->
  result (storage_save records w) = Normal tt
  /\ localStorage (world_after (storage_save records w)) = localStorage w
  /\ exists e : exn,
       console (world_after (storage_save records w))
       = (console w ++ [("Storage write error", e)])%list.
Proof.
  intros Hfail. destruct (storage_save_failed records w Hfail) as [e ->].
  split; [reflexivity |]. split; [reflexivity |]. now exists e.
Qed.

Lemma save_failure_is_logged_witness :
  returns (localStorage_setItem STORAGE_KEY (JSON_stringify (json_of_list [ana]))
                                (sample_world 100)) = false
  /\ result (storage_save [ana] (sample_world 100)) = Normal tt
  /\ localStorage (world_after (storage_save [ana] (sample_world 100)))
     = localStorage (sample_world 100).
Proof.
  assert (Hfail : returns (localStorage_setItem STORAGE_KEY
                             (JSON_stringify (json_of_list [ana]))
                             (sample_world 100)) = false)
    by (vm_compute; reflexivity).
  split; [exact Hfail |].
  destruct (save_failure_is_logged [ana] (sample_world 100) Hfail) as (Hret & Hls & _).
  split; [exact Hret | exact Hls].
Defined.

(** ** C10: the mock QR box *)

(** The box is the last thing [drawCertificateToCanvas] draws. *)
Lemma drawCertificateToCanvas_box {browser : Platform} (cert : certificate) (cv : Canvas) :
  exists ctx : Context2D,
    context (drawCertificateToCanvas cert cv)
    = drawMockQR ctx (verificationCode cert) (1200 - 220) (675 - 170) 150.
Proof. eexists. reflexivity. Qed.

(** C10.  The mock QR box does not depend on the verification code: the
    text handed to [drawMockQR] never reaches a drawing command, so two
    texts give the same context, and the commands drawn are the
    checkerboard of the position and the size alone; whatever the record,
    the drawing of a certificate ends with the same box. *)
Theorem drawMockQR_ignores_text {browser : Platform} (ctx : Context2D)
        (text1 text2 : string) (x y size : Q) :
  drawMockQR ctx text1 x y size = drawMockQR ctx text2 x y size
  /\ emitted_by ctx (drawMockQR ctx text1 x y size) = mockQR_commands x y size
  /\ forall (cert : certificate) (cv : Canvas),
       exists before : list draw_op,
         drawn (context (drawCertificateToCanvas cert cv))
         = (before ++ mockQR_commands (1200 - 220) (675 - 170) 150)%list.
Proof.
  rewrite !drawMockQR_commands. split; [reflexivity |]. split.
  - unfold emitted_by. cbn [drawn]. apply drop_app_length.
  - intros cert cv. destruct (drawCertificateToCanvas_box cert cv) as [c ->].
    rewrite drawMockQR_commands. now exists (drawn c).
Qed.

(** * Further properties of the module *)

(** ** [escapeHtml] *)

Lemma html_entity_cases (c : ascii) :
  match html_entity c with
  | Some e =>
      (c = "&"%char /\ e = "&amp;") \/ (c = "<"%char /\ e = "&lt;")
      \/ (c = ">"%char /\ e = "&gt;") \/ (c = "034"%char /\ e = "&quot;")
      \/ (c = "'"%char /\ e = "&#39;")
  | None => c <> "&"%char /\ is_markup c = false
  end.
Proof.
  destruct c as [[] [] [] [] [] [] [] []]; vm_compute;
    first [ split; [discriminate | reflexivity]
          | left; split; reflexivity
          | right; left; split; reflexivity
          | right; right; left; split; reflexivity
          | right; right; right; left; split; reflexivity
          | right; right; right; right; split; reflexivity ].
Qed.

Lemma all_chars_append (p : ascii -> bool) (a b : string) :
  JSString.all_chars p (a +:+ b) = JSString.all_chars p a && JSString.all_chars p b.
Proof.
  induction a as [| c a IH]; [reflexivity |].
  rewrite append_String. simpl. now rewrite IH, andb_assoc.
Qed.

(** X1.  Whatever the string, [escapeHtml] returns a string without
    angle brackets and without quotes: inserted between tags or inside a
    quoted attribute, it cannot open a tag or close the attribute. *)
Theorem escapeHtml_no_markup (str : string) :
  JSString.all_chars (fun c => negb (is_markup c)) (escapeHtml str) = true.
Proof.
  induction str as [| c rest IH]; [reflexivity |].
  simpl. pose proof (html_entity_cases c) as Hc.
  destruct (html_entity c) as [e |].
  - rewrite all_chars_append, IH, andb_true_r.
    destruct Hc as [[_ ->] | [[_ ->] | [[_ ->] | [[_ ->] | [_ ->]]]]]; reflexivity.
  - destruct Hc as [_ Hm]. simpl. now rewrite Hm, IH.
Qed.

(** Reading the entities back gives the string that was escaped. *)
Lemma unescapeHtml_escapeHtml (str : string) :
  unescapeHtml (escapeHtml str) = str.
Proof.
  induction str as [| c rest IH]; [reflexivity |].
  cbn [escapeHtml].
  destruct c as [[] [] [] [] [] [] [] []];
    match goal with
    | |- context [html_entity ?c] =>
        let e := eval vm_compute in (html_entity c) in
        change (html_entity c) with e
    end;
    cbn iota; rewrite ?append_String, ?append_empty_l;
    cbn [unescapeHtml]; rewrite IH; reflexivity.
Qed.

(** X2.  [escapeHtml] loses nothing: two strings have the same escaped
    form exactly when they are the same string. *)
Theorem escapeHtml_injective (s t : string) :
  escapeHtml s = escapeHtml t <-> s = t.
Proof.
  split; [| now intros ->].
  intros H. apply (f_equal unescapeHtml) in H.
  now rewrite !unescapeHtml_escapeHtml in H.
Qed.

Lemma escapeHtml_length (str : string) :
  String.length str <= String.length (escapeHtml str).
Proof.
  induction str as [| c rest IH]; [reflexivity |].
  simpl. pose proof (html_entity_cases c) as Hc.
  destruct (html_entity c) as [e |]; [| simpl; lia].
  rewrite length_append.
  destruct Hc as [[_ ->] | [[_ ->] | [[_ ->] | [[_ ->] | [_ ->]]]]]; simpl; lia.
Qed.

(** X3.  [escapeHtml] returns its argument unchanged exactly when the
    argument holds none of the five characters; otherwise the result is
    longer. *)
Theorem escapeHtml_fixed_point (str : string) :
  (escapeHtml str = str
   <-> JSString.all_chars (fun c => negb (is_html_special c)) str = true)
  /\ (escapeHtml str <> str -> String.length str < String.length (escapeHtml str)).
Proof.
  split.
  - induction str as [| c rest IH]; [split; reflexivity |].
    simpl. unfold is_html_special. pose proof (html_entity_cases c) as Hc.
    destruct (html_entity c) as [e |] eqn:He.
    + split; [| discriminate]. intros Heq. exfalso.
      apply (f_equal String.length) in Heq. rewrite length_append in Heq.
      pose proof (escapeHtml_length rest). simpl in Heq.
      destruct Hc as [[_ ->] | [[_ ->] | [[_ ->] | [[_ ->] | [_ ->]]]]];
        simpl in Heq; lia.
    + simpl. rewrite <- IH. split; [intros H; now injection H | now intros ->].
  - induction str as [| c rest IH]; [intros H; now contradiction H |].
    simpl. pose proof (html_entity_cases c) as Hc.
    pose proof (escapeHtml_length rest) as Hlen.
    destruct (html_entity c) as [e |].
    + intros _. rewrite length_append.
      destruct Hc as [[_ ->] | [[_ ->] | [[_ ->] | [[_ ->] | [_ ->]]]]]; simpl; lia.
    + intros Hne. simpl. apply -> Nat.succ_lt_mono. apply IH.
      intros Heq. apply Hne. now rewrite Heq.
Qed.

(** X4.  Escaping a concatenation is concatenating the escapes: a
    template put together from escaped pieces is the escaped whole. *)
Theorem escapeHtml_append (s t : string) :
  escapeHtml (s +:+ t) = escapeHtml s +:+ escapeHtml t.
Proof.
  induction s as [| c s IH]; [reflexivity |].
  rewrite append_String. simpl. rewrite IH.
  destruct (html_entity c); [now rewrite append_assoc | reflexivity].
Qed.

(** ** The storage helpers and the other keys of the origin *)

Section StorageMore.
Context {browser : Platform}.

Lemma storage_clear_run (w : World) :
  storage_clear w
  = if ls_denied (localStorage w) then (Thrown SecurityError, w)
    else (Normal tt,
          set_localStorage
            (mkLocalStorage (delete STORAGE_KEY (ls_items (localStorage w)))
                            (ls_quota (localStorage w)) (ls_denied (localStorage w))) w).
Proof. reflexivity. Qed.

(** X5.  The helpers work on one key: whatever [save], [clear] and
    [load] do, every other key of [localStorage] holds what it held. *)
Theorem storage_keeps_other_keys (records : list certificate) (w : World) (k : string) :
  k <> STORAGE_KEY ->
  ls_items (localStorage (world_after (storage_save records w))) !! k
    = ls_items (localStorage w) !! k
  /\ ls_items (localStorage (world_after (storage_clear w))) !! k
     = ls_items (localStorage w) !! k
  /\ ls_items (localStorage (world_after (storage_load w))) !! k
     = ls_items (localStorage w) !! k.
Proof.
  intros Hk. split; [| split].
  - destruct (returns (localStorage_setItem STORAGE_KEY
                         (JSON_stringify (json_of_list records)) w)) eqn:Hw.
    + rewrite (storage_save_written _ _ Hw). unfold world_after. simpl.
      apply lookup_insert_ne. congruence.
    + destruct (storage_save_failed _ _ Hw) as [e ->]. reflexivity.
  - rewrite storage_clear_run. destruct (ls_denied (localStorage w)); [reflexivity |].
    unfold world_after. simpl. apply lookup_delete_ne. congruence.
  - now rewrite storage_load_keeps_storage.
Qed.

Context {laws : JSONLaws browser}.

(** X6.  Two saves in a row: when the first write goes through, a load
    after the second save returns the second list if the second write goes
    through as well, and the first list if it fails. *)
Theorem save_twice (first second : list certificate) (w : World) :
  returns (localStorage_setItem STORAGE_KEY (JSON_stringify (json_of_list first)) w) = true ->
  let w1 := world_after (storage_save first w) in
  let after := result (storage_load (world_after (storage_save second w1))) in
  (returns (localStorage_setItem STORAGE_KEY
              (JSON_stringify (json_of_list second)) w1) = true ->
   after = Normal (json_of_list second))
  /\ (returns (localStorage_setItem STORAGE_KEY
                 (JSON_stringify (json_of_list second)) w1) = false ->
      after = Normal (json_of_list first)).
Proof.
  intros Hfirst w1 after. split.
  - intros Hsecond. now apply save_then_load.
  - intros Hsecond. subst after.
    destruct (storage_save_failed second w1 Hsecond) as [e ->].
    unfold world_after at 1. cbn [snd].
    rewrite (storage_load_stored _ first); [reflexivity | |].
    + subst w1. now rewrite (storage_save_written _ _ Hfirst).
    + subst w1. rewrite (storage_save_written _ _ Hfirst).
      unfold world_after. simpl. apply lookup_insert_eq.
Qed.

(** X7.  [storage.clear()] has no [try]: on a storage that can be read
    it removes the slot, so that a load afterwards returns the empty list
    and logs nothing, whatever the slot held; on a storage that cannot, it
    throws to its caller and changes nothing, where [load] and [save]
    return. *)
Theorem storage_clear_then_load (w : World) :
  (ls_denied (localStorage w) = false ->
   result (storage_clear w) = Normal tt
   /\ ls_items (localStorage (world_after (storage_clear w))) !! STORAGE_KEY = None
   /\ storage_load (world_after (storage_clear w))
      = (Normal (JArray []), world_after (storage_clear w))
   /\ console (world_after (storage_clear w)) = console w)
  /\ (ls_denied (localStorage w) = true ->
      storage_clear w = (Thrown SecurityError, w)
      /\ returns (storage_load w) = true
      /\ forall records, returns (storage_save records w) = true).
Proof.
  split; intros Hd.
  - rewrite storage_clear_run, Hd. unfold result, world_after. cbn [fst snd].
    split; [reflexivity |]. split; [simpl; apply lookup_delete_eq |].
    split; [| reflexivity].
    rewrite (storage_load_raw _ "[]").
    + now rewrite parse_empty_array.
    + reflexivity.
    + simpl. now rewrite lookup_delete_eq.
  - rewrite storage_clear_run, Hd. split; [reflexivity |].
    split; [apply storage_load_returns |].
    intros records. pose proof (storage_save_returns records w) as H.
    unfold returns. unfold result in H. now rewrite H.
Qed.

End StorageMore.

(** On the reference browser. *)

Lemma storage_keeps_other_keys_witness :
  "sicfor:theme" <> STORAGE_KEY
  /\ ls_items (localStorage (world_after (storage_save [ana] (sample_world 5000))))
       !! "sicfor:theme"
     = ls_items (localStorage (sample_world 5000)) !! "sicfor:theme".
Proof.
  assert (Hk : "sicfor:theme" <> STORAGE_KEY) by discriminate.
  split; [exact Hk |].
  exact (proj1 (storage_keeps_other_keys [ana] (sample_world 5000) "sicfor:theme" Hk)).
Defined.

Lemma save_twice_witness :
  returns (localStorage_setItem STORAGE_KEY (JSON_stringify (json_of_list [ana]))
                                (sample_world 5000)) = true
  /\ result (storage_load
               (world_after
                  (storage_save [luis; ana]
                     (world_after (storage_save [ana] (sample_world 5000))))))
     = Normal (json_of_list [luis; ana]).
Proof.
  assert (Hfirst : returns (localStorage_setItem STORAGE_KEY
                              (JSON_stringify (json_of_list [ana]))
                              (sample_world 5000)) = true)
    by (vm_compute; reflexivity).
  split; [exact Hfirst |].
  pose proof (save_twice [ana] [luis; ana] (sample_world 5000) Hfirst) as H.
  cbv zeta in H. destruct H as [H _]. apply H. vm_compute. reflexivity.
Defined.

Lemma storage_clear_then_load_witness :
  ls_denied (localStorage (world_after (storage_save [ana] (sample_world 5000)))) = false
  /\ storage_load
       (world_after (storage_clear (world_after (storage_save [ana] (sample_world 5000)))))
     = (Normal (JArray []),
        world_after (storage_clear (world_after (storage_save [ana] (sample_world 5000))))).
Proof.
  assert (Hd : ls_denied (localStorage
                            (world_after (storage_save [ana] (sample_world 5000)))) = false)
    by (vm_compute; reflexivity).
  split; [exact Hd |].
  destruct (storage_clear_then_load
              (world_after (storage_save [ana] (sample_world 5000)))) as [H _].
  exact (proj1 (proj2 (proj2 (H Hd)))).
Defined.

(** ** Generating, previewing, deleting *)

Section HandlerMore.
Context {browser : Platform}.

(** The date of a generated record: the input, or the first ten
    characters of the clock when the input is blank. *)
Lemma handleGenerateAndSave_steps (form : form_values) (this : CertificateModule)
      (w : World) :
  exists (date : string) (w0 : World),
    date = (if JSString.truthy (inputDate form) then inputDate form
            else JSString.slice (clock w (clock_reads w)) 0 10)
    /\ localStorage w0 = localStorage w /\ console w0 = console w
    /\ random_source w0 = random_source w /\ random_calls w0 = random_calls w
    /\ _handleGenerateAndSave form this w
       = if negb (JSString.truthy (JSString.trim (inputName form)))
         then (Normal this, w0)
         else
           let cert := {| id := digits_string (firstn 12 (random_source w (random_calls w)));
                          verificationCode :=
                            JSString.toUpperCase
                              (digits_string
                                 (firstn 16 (random_source w (S (random_calls w)))));
                          name := JSString.trim (inputName form);
                          title := JSString.trim (inputTitle form);
                          issuer := JSString.trim (inputIssuer form);
                          date := date;
                          note := JSString.trim (inputNote form);
                          createdAt := clock w0 (clock_reads w0) |} in
           (Normal {| certList := cert :: certList this;
                      currentPreview := Some cert;
                      canvas := option_map (drawCertificateToCanvas cert) (canvas this) |},
            world_after
              (storage_save (cert :: certList this)
                 (set_clock_reads (S (clock_reads w0))
                    (set_random_calls (S (S (random_calls w0))) w0)))).
Proof.
  unfold _handleGenerateAndSave. cbn [p_name].
  destruct (JSString.truthy (inputDate form)).
  - exists (inputDate form), w. repeat split.
    unfold bind at 1. unfold ret at 1.
    destruct (negb (JSString.truthy (JSString.trim (inputName form)))); [reflexivity |].
    unfold bind at 1. rewrite makeCertificate_run. now rewrite storage_save_then.
  - exists (JSString.slice (clock w (clock_reads w)) 0 10),
           (set_clock_reads (S (clock_reads w)) w). repeat split.
    unfold bind at 1. unfold bind at 1. unfold Date_now_toISOString, ret at 1.
    destruct (negb (JSString.truthy (JSString.trim (inputName form)))); [reflexivity |].
    unfold bind at 1. rewrite makeCertificate_run. now rewrite storage_save_then.
Qed.

Lemma handleGenerateAndSave_blank (form : form_values) (this : CertificateModule)
      (w : World) :
  JSString.truthy (JSString.trim (inputName form)) = false ->
  exists w' : World,
    _handleGenerateAndSave form this w = (Normal this, w')
    /\ localStorage w' = localStorage w
    /\ console w' = console w
    /\ random_calls w' = random_calls w.
Proof.
  intros Hname.
  destruct (handleGenerateAndSave_steps form this w)
    as (day & w0 & _ & Hls & Hc & _ & Hr & Hrun).
  rewrite Hname in Hrun. exists w0. now repeat split.
Qed.

Lemma handleGenerateAndSave_valid (form : form_values) (this : CertificateModule)
      (w : World) :
  JSString.truthy (JSString.trim (inputName form)) = true ->
  exists (cert : certificate) (this' : CertificateModule) (w1 : World),
    _handleGenerateAndSave form this w
      = (Normal this', world_after (storage_save (cert :: certList this) w1))
    /\ localStorage w1 = localStorage w
    /\ certList this' = cert :: certList this
    /\ currentPreview this' = Some cert
    /\ canvas this' = option_map (drawCertificateToCanvas cert) (canvas this)
    /\ name cert = JSString.trim (inputName form)
    /\ title cert = JSString.trim (inputTitle form)
    /\ issuer cert = JSString.trim (inputIssuer form)
    /\ note cert = JSString.trim (inputNote form)
    /\ date cert = (if JSString.truthy (inputDate form) then inputDate form
                    else JSString.slice (clock w (clock_reads w)) 0 10)
    /\ id cert = digits_string (firstn 12 (random_source w (random_calls w)))
    /\ verificationCode cert
       = JSString.toUpperCase
           (digits_string (firstn 16 (random_source w (S (random_calls w))))).
Proof.
  intros Hname.
  destruct (handleGenerateAndSave_steps form this w)
    as (day & w0 & Hday & Hls & _ & _ & _ & Hrun).
  rewrite Hname in Hrun. cbn [negb] in Hrun. cbv zeta in Hrun.
  do 3 eexists. split; [exact Hrun |].
  cbn [certList currentPreview canvas name title issuer note date id verificationCode].
  repeat split; assumption.
Qed.

(** X8.  A form whose name is blank, or made of white space only, is
    rejected: the handler returns with the module as it was, and the
    storage, the console and the random source are untouched. *)
Theorem generate_rejects_blank_name (form : form_values) (this : CertificateModule)
        (w : World) :
  JSString.truthy (JSString.trim (inputName form)) = false ->
  exists w' : World,
    _handleGenerateAndSave form this w = (Normal this, w')
    /\ localStorage w' = localStorage w
    /\ console w' = console w
    /\ random_calls w' = random_calls w.
Proof. apply handleGenerateAndSave_blank. Qed.

(** X9.  A form with a name gives a record whose name, title, issuer and
    note are the inputs trimmed, whose date is the input, or the first ten
    characters of the clock when the input is blank, and whose name is not
    empty; the record is the head of the list, which is one longer, and
    the current preview; the canvas, when there is one, shows it. *)
Theorem generate_record_fields (form : form_values) (this : CertificateModule)
        (w : World) :
  JSString.truthy (JSString.trim (inputName form)) = true ->
  exists (cert : certificate) (this' : CertificateModule) (w' : World),
    _handleGenerateAndSave form this w = (Normal this', w')
    /\ certList this' = cert :: certList this
    /\ length (certList this') = S (length (certList this))
    /\ currentPreview this' = Some cert
    /\ canvas this' = option_map (drawCertificateToCanvas cert) (canvas this)
    /\ name cert = JSString.trim (inputName form)
    /\ name cert <> EmptyString
    /\ title cert = JSString.trim (inputTitle form)
    /\ issuer cert = JSString.trim (inputIssuer form)
    /\ note cert = JSString.trim (inputNote form)
    /\ date cert = (if JSString.truthy (inputDate form) then inputDate form
                    else JSString.slice (clock w (clock_reads w)) 0 10).
Proof.
  intros Hname.
  destruct (handleGenerateAndSave_valid form this w Hname)
    as (cert & this' & w1 & Hrun & _ & Hlist & Hprev & Hcv & Hn & Ht & Hi & Hno & Hd & _).
  exists cert, this'. eexists. split; [exact Hrun |].
  repeat split; try assumption.
  - now rewrite Hlist.
  - intros Hempty. rewrite Hn in Hempty. rewrite Hempty in Hname. discriminate Hname.
Qed.

(** X10.  Records without a name never enter the list: when every
    record of the list has a name, so has every record of the list after
    a form is submitted and after a delete button is clicked, whatever the
    form, the id and the answer to the dialog. *)
Theorem names_stay_nonempty (form : form_values) (data_id : string) (confirmed : bool)
        (this : CertificateModule) (w : World) :
  Forall (fun c => name c <> EmptyString) (certList this) ->
  (exists this' w', _handleGenerateAndSave form this w = (Normal this', w')
                    /\ Forall (fun c => name c <> EmptyString) (certList this'))
  /\ (exists this' w', btnDelete_click data_id confirmed this w = (Normal this', w')
                       /\ Forall (fun c => name c <> EmptyString) (certList this')).
Proof.
  intros Hall. split.
  - destruct (JSString.truthy (JSString.trim (inputName form))) eqn:Hname.
    + destruct (handleGenerateAndSave_valid form this w Hname)
        as (cert & this' & w1 & Hrun & _ & Hlist & _ & _ & Hn & _).
      exists this'. eexists. split; [exact Hrun |]. rewrite Hlist.
      constructor; [| exact Hall].
      intros Hempty. rewrite Hn in Hempty. rewrite Hempty in Hname. discriminate Hname.
    + destruct (handleGenerateAndSave_blank form this w Hname) as (w' & Hrun & _).
      now exists this, w'.
  - destruct confirmed.
    + do 2 eexists. split; [apply btnDelete_run |]. cbn [certList].
      apply List.Forall_forall. intros c Hc. apply List.filter_In in Hc as [Hc _].
      rewrite List.Forall_forall in Hall. now apply Hall.
    + now exists this, w.
Qed.

Lemma filter_filter_same {A : Type} (p : A -> bool) (l : list A) :
  List.filter p (List.filter p l) = List.filter p l.
Proof.
  induction l as [| a l IH]; [reflexivity |].
  simpl. destruct (p a) eqn:Ha; [| exact IH].
  simpl. now rewrite Ha, IH.
Qed.

Lemma find_none_iff {A : Type} (p : A -> bool) (l : list A) :
  List.find p l = None <-> forall a, In a l -> p a = false.
Proof.
  split; [apply List.find_none |].
  induction l as [| a l IH]; [reflexivity |].
  intros H. simpl. rewrite (H a (or_introl eq_refl)). apply IH.
  intros b Hb. apply H. now right.
Qed.

(** The drawing of a certificate starts from a canvas reset to 1200 by
    675: what the canvas held and how large it was make no difference. *)
Lemma drawCertificateToCanvas_any_canvas (cert : certificate) (cv cv' : Canvas) :
  drawCertificateToCanvas cert cv = drawCertificateToCanvas cert cv'.
Proof. reflexivity. Qed.

Lemma btnView_none_iff (data_id : string) (this : CertificateModule) :
  btnView_click data_id this = None
  <-> forall c, In c (certList this) -> id c <> data_id.
Proof.
  unfold btnView_click.
  destruct (List.find _ _) as [cert |] eqn:Hfind.
  - split; [discriminate |]. intros Hnone. exfalso.
    apply List.find_some in Hfind as [Hin Hid].
    apply String.eqb_eq in Hid. exact (Hnone cert Hin Hid).
  - split; [| reflexivity]. intros _ c Hc.
    rewrite find_none_iff in Hfind. apply String.eqb_neq. now apply Hfind.
Qed.

(** X11.  A click on a view button opens nothing exactly when no record
    of the list has the id; otherwise it draws the first record with that
    id, on a canvas of its own. *)
Theorem view_draws_first_match (data_id : string) (this : CertificateModule) :
  (btnView_click data_id this = None
   <-> forall c, In c (certList this) -> id c <> data_id)
  /\ (forall cv, btnView_click data_id this = Some cv ->
       exists (before after : list certificate) (cert : certificate),
         certList this = (before ++ cert :: after)%list
         /\ id cert = data_id
         /\ (forall c, In c before -> id c <> data_id)
         /\ cv = drawCertificateToCanvas cert new_canvas).
Proof.
  split; [apply btnView_none_iff |].
  unfold btnView_click. intros cv Hcv.
  induction (certList this) as [| c l IH]; [discriminate Hcv |].
  simpl in Hcv. destruct (String.eqb_spec (id c) data_id) as [Hid | Hid].
  - exists [], l, c. injection Hcv as <-. repeat split; try assumption.
    intros c0 [].
  - destruct (IH Hcv) as (before & after & cert & -> & Hc & Hbefore & ->).
    exists (c :: before), after, cert. repeat split; try assumption.
    intros c0 [<- | Hc0]; [exact Hid | now apply Hbefore].
Qed.

(** X12.  A declined delete changes nothing.  After a confirmed delete
    the list in memory is no longer than before, a click on the view button
    of the deleted id opens nothing, and a second delete of the same id
    leaves the list as the first left it. *)
Theorem delete_is_final (data_id : string) (this : CertificateModule) (w : World) :
  btnDelete_click data_id false this w = (Normal this, w)
  /\ exists this1 w1 this2 w2,
       btnDelete_click data_id true this w = (Normal this1, w1)
       /\ btnDelete_click data_id true this1 w1 = (Normal this2, w2)
       /\ length (certList this1) <= length (certList this)
       /\ btnView_click data_id this1 = None
       /\ certList this2 = certList this1.
Proof.
  split; [reflexivity |].
  do 4 eexists. split; [apply btnDelete_run |]. split; [apply btnDelete_run |].
  cbn [certList]. split; [apply List.filter_length_le |].
  split; [| apply filter_filter_same].
  apply btnView_none_iff. cbn [certList]. intros c Hc.
  apply List.filter_In in Hc as [_ Hc].
  now apply negb_true_iff, String.eqb_neq in Hc.
Qed.

Lemma uid_upper_alnum (len : nat) (d : draw) :
  JSString.all_chars JSString.is_upper_alnum
    (JSString.toUpperCase (digits_string (firstn len d))) = true.
Proof.
  unfold JSString.toUpperCase. rewrite all_chars_map.
  apply (all_chars_impl JSString.is_lower_alnum); [| apply digits_string_lower_alnum].
  intros c Hc. apply (lower_alnum_char c Hc).
Qed.

(** X13.  A record just generated can be retrieved: a search for its
    verification code, typed in upper or in lower case, shows this record,
    provided the code is not empty (the random number behind it was not
    0); and a click on its view button draws it, the same picture as the
    one on the preview canvas when the page has one. *)
Theorem generated_record_is_retrievable (form : form_values) (this : CertificateModule)
        (w : World) :
  JSString.truthy (JSString.trim (inputName form)) = true ->
  exists (cert : certificate) (this' : CertificateModule) (w' : World),
    _handleGenerateAndSave form this w = (Normal this', w')
    /\ certList this' = cert :: certList this
    /\ (random_source w (S (random_calls w)) <> [] ->
        btnSearch_click (verificationCode cert) this' = ValidCertificate cert
        /\ btnSearch_click (JSString.toLowerCase (verificationCode cert)) this'
           = ValidCertificate cert)
    /\ btnView_click (id cert) this' = Some (drawCertificateToCanvas cert new_canvas)
    /\ (canvas this <> None -> canvas this' = btnView_click (id cert) this').
Proof.
  intros Hname.
  destruct (handleGenerateAndSave_valid form this w Hname)
    as (cert & this' & w1 & Hrun & _ & Hlist & _ & Hcv & _ & _ & _ & _ & _ & _ & Hcode).
  exists cert, this'. eexists. split; [exact Hrun |]. split; [exact Hlist |].
  assert (Hview : btnView_click (id cert) this'
                  = Some (drawCertificateToCanvas cert new_canvas)).
  { unfold btnView_click. rewrite Hlist. simpl. now rewrite String.eqb_refl. }
  split; [| split; [exact Hview |]].
  - intros Hdraw.
    assert (Halnum : JSString.all_chars JSString.is_upper_alnum (verificationCode cert) = true)
      by (rewrite Hcode; apply uid_upper_alnum).
    assert (Hne : JSString.truthy (verificationCode cert) = true).
    { rewrite Hcode. destruct (random_source w (S (random_calls w))); [congruence |].
      reflexivity. }
    unfold btnSearch_click.
    rewrite (search_query_lower _ Halnum), (search_query_exact _ Halnum), Hne, Hlist.
    simpl. now rewrite String.eqb_refl.
  - intros Hsome. rewrite Hview, Hcv.
    destruct (canvas this) as [cv |]; [| congruence]. reflexivity.
Qed.

Context {laws : JSONLaws browser}.

(** X14.  Generating a record and deleting it again restores the list,
    provided no older record has the id of the new one; when the write of
    the restored list goes through, a load returns it.  (An older record
    with the same id is deleted with it.) *)
Theorem generate_then_delete (form : form_values) (this : CertificateModule) (w : World) :
  JSString.truthy (JSString.trim (inputName form)) = true ->
  exists (cert : certificate) (this1 : CertificateModule) (w1 : World)
         (this2 : CertificateModule) (w2 : World),
    _handleGenerateAndSave form this w = (Normal this1, w1)
    /\ certList this1 = cert :: certList this
    /\ btnDelete_click (id cert) true this1 w1 = (Normal this2, w2)
    /\ certList this2
       = List.filter (fun c => negb (String.eqb (id c) (id cert))) (certList this)
    /\ ((forall c, In c (certList this) -> id c <> id cert) ->
        certList this2 = certList this
        /\ (returns (localStorage_setItem STORAGE_KEY
                       (JSON_stringify (json_of_list (certList this))) w1) = true ->
            result (storage_load w2) = Normal (json_of_list (certList this)))).
Proof.
  intros Hname.
  destruct (handleGenerateAndSave_valid form this w Hname)
    as (cert & this1 & w0 & Hrun & _ & Hlist & _).
  exists cert, this1. do 3 eexists.
  split; [exact Hrun |]. split; [exact Hlist |].
  split; [apply btnDelete_run |].
  assert (Hkept : List.filter (fun c => negb (String.eqb (id c) (id cert))) (certList this1)
                  = List.filter (fun c => negb (String.eqb (id c) (id cert))) (certList this)).
  { rewrite Hlist. simpl. now rewrite String.eqb_refl. }
  cbn [certList]. split; [exact Hkept |].
  intros Hfresh.
  assert (Hall : List.filter (fun c => negb (String.eqb (id c) (id cert))) (certList this)
                 = certList this).
  { apply filter_all. intros c Hc. apply negb_true_iff, String.eqb_neq. now apply Hfresh. }
  split; [now rewrite Hkept |].
  intros Hok. rewrite Hkept, Hall. now apply save_then_load.
Qed.

(** X15.  Clearing the history: a declined dialog changes nothing; on a
    storage that can be read, the list in memory becomes empty, the slot is
    removed and a load returns the empty list; on a storage that cannot,
    the handler throws, and the list in memory is empty all the same. *)
Theorem clear_history (this : CertificateModule) (w : World) :
  btnClearHistory_click false this w = (Normal tt, this, w)
  /\ (ls_denied (localStorage w) = false ->
      exists this' w',
        btnClearHistory_click true this w = (Normal tt, this', w')
        /\ certList this' = []
        /\ ls_items (localStorage w') !! STORAGE_KEY = None
        /\ storage_load w' = (Normal (JArray []), w'))
  /\ (ls_denied (localStorage w) = true ->
      exists this',
        btnClearHistory_click true this w = (Thrown SecurityError, this', w)
        /\ certList this' = []).
Proof.
  split; [reflexivity |]. unfold btnClearHistory_click. cbn [negb].
  rewrite storage_clear_run. split; intros Hd; rewrite Hd.
  - do 2 eexists. split; [reflexivity |]. split; [reflexivity |].
    split; [simpl; apply lookup_delete_eq |].
    rewrite (storage_load_raw _ "[]").
    + now rewrite parse_empty_array.
    + reflexivity.
    + simpl. now rewrite lookup_delete_eq.
  - eexists. split; reflexivity.
Qed.

End HandlerMore.

(** On the reference browser. *)

Lemma generate_rejects_blank_name_witness :
  JSString.truthy (JSString.trim (inputName blank_form)) = false
  /\ exists w' : World,
       _handleGenerateAndSave blank_form (mkModule [ana] None None) (sample_world 5000)
       = (Normal (mkModule [ana] None None), w')
       /\ localStorage w' = localStorage (sample_world 5000)
       /\ console w' = console (sample_world 5000)
       /\ random_calls w' = random_calls (sample_world 5000).
Proof.
  split; [reflexivity |].
  apply (generate_rejects_blank_name blank_form (mkModule [ana] None None)
                                     (sample_world 5000)).
  reflexivity.
Defined.

Lemma generate_record_fields_witness :
  JSString.truthy (JSString.trim (inputName luis_form)) = true
  /\ exists (cert : certificate) (this' : CertificateModule) (w' : World),
       _handleGenerateAndSave luis_form new_module (sample_world 5000)
       = (Normal this', w')
       /\ certList this' = [cert]
       /\ name cert = "Luis Mora"
       /\ date cert = "2024-03-01".
Proof.
  split; [reflexivity |].
  destruct (generate_record_fields luis_form new_module (sample_world 5000) eq_refl)
    as (cert & this' & w' & Hrun & Hlist & _ & _ & _ & Hname & _ & _ & _ & _ & Hdate).
  exists cert, this', w'. split; [exact Hrun |]. split; [exact Hlist |].
  split; [exact Hname | exact Hdate].
Defined.

Lemma names_stay_nonempty_witness :
  Forall (fun c => name c <> EmptyString) (certList (mkModule [luis; ana] None None))
  /\ exists this' w',
       btnDelete_click "17u2" true (mkModule [luis; ana] None None) (sample_world 5000)
       = (Normal this', w')
       /\ Forall (fun c => name c <> EmptyString) (certList this').
Proof.
  assert (Hall : Forall (fun c => name c <> EmptyString)
                        (certList (mkModule [luis; ana] None None)))
    by (repeat constructor; discriminate).
  split; [exact Hall |].
  exact (proj2 (names_stay_nonempty luis_form "17u2" true (mkModule [luis; ana] None None)
                                    (sample_world 5000) Hall)).
Defined.

Lemma generated_record_is_retrievable_witness :
  JSString.truthy (JSString.trim (inputName ana_form)) = true
  /\ exists (cert : certificate) (this' : CertificateModule) (w' : World),
       _handleGenerateAndSave ana_form new_module (sample_world 5000) = (Normal this', w')
       /\ btnSearch_click (JSString.toLowerCase (verificationCode cert)) this'
          = ValidCertificate cert
       /\ btnView_click (id cert) this' = Some (drawCertificateToCanvas cert new_canvas).
Proof.
  split; [reflexivity |].
  destruct (generated_record_is_retrievable ana_form new_module (sample_world 5000) eq_refl)
    as (cert & this' & w' & Hrun & _ & Hsearch & Hview & _).
  exists cert, this', w'. split; [exact Hrun |]. split; [| exact Hview].
  apply Hsearch. discriminate.
Defined.

Lemma generate_then_delete_witness :
  JSString.truthy (JSString.trim (inputName ana_form)) = true
  /\ exists (cert : certificate) (this1 : CertificateModule) (w1 : World)
            (this2 : CertificateModule) (w2 : World),
       _handleGenerateAndSave ana_form (mkModule [luis] None None) (sample_world 5000)
       = (Normal this1, w1)
       /\ btnDelete_click (id cert) true this1 w1 = (Normal this2, w2)
       /\ certList this2 = [luis]
       /\ result (storage_load w2) = Normal (json_of_list [luis]).
Proof.
  split; [reflexivity |].
  destruct (generate_then_delete ana_form (mkModule [luis] None None)
                                 (sample_world 5000) eq_refl)
    as (cert & this1 & w1 & this2 & w2 & Hrun & Hlist & Hdel & _ & Hfresh).
  exists cert, this1, w1, this2, w2. split; [exact Hrun |]. split; [exact Hdel |].
  assert (Hw1 : w1 = world_after (_handleGenerateAndSave ana_form (mkModule [luis] None None)
                                                          (sample_world 5000)))
    by (rewrite Hrun; reflexivity).
  assert (Hid : id cert = "17u2").
  { assert (Hthis : certList this1
                    = match returned (_handleGenerateAndSave ana_form
                                        (mkModule [luis] None None) (sample_world 5000)) with
                      | Some m => certList m
                      | None => []
                      end)
      by (rewrite Hrun; reflexivity).
    rewrite Hlist in Hthis. vm_compute in Hthis. now injection Hthis as ->. }
  destruct Hfresh as [Hsame Hload].
  - intros c [<- | []]. rewrite Hid. discriminate.
  - split; [exact Hsame |]. apply Hload. rewrite Hw1. vm_compute. reflexivity.
Defined.

Lemma clear_history_witness :
  ls_denied (localStorage (world_after (storage_save [ana] (sample_world 5000)))) = false
  /\ exists this' w',
       btnClearHistory_click true (mkModule [ana] None None)
                             (world_after (storage_save [ana] (sample_world 5000)))
       = (Normal tt, this', w')
       /\ certList this' = []
       /\ storage_load w' = (Normal (JArray []), w').
Proof.
  assert (Hd : ls_denied (localStorage
                            (world_after (storage_save [ana] (sample_world 5000)))) = false)
    by (vm_compute; reflexivity).
  split; [exact Hd |].
  destruct (clear_history (mkModule [ana] None None)
                          (world_after (storage_save [ana] (sample_world 5000))))
    as (_ & H & _).
  destruct (H Hd) as (this' & w' & Hrun & Hlist & _ & Hload).
  exists this', w'. split; [exact Hrun |]. split; [exact Hlist | exact Hload].
Defined.

(** ** The preview *)

Lemma or_else_truthy (a b : string) :
  JSString.truthy b = true -> JSString.truthy (JSString.or_else a b) = true.
Proof. intros Hb. unfold JSString.or_else. now destruct (JSString.truthy a) eqn:Ha. Qed.

(** X16.  A preview is never stored: the handler always returns, and the
    list in memory, the storage and the console are as before.  Without a
    canvas on the page nothing happens at all; with one, the canvas shows
    a record that becomes the current preview, whose name, title and issuer
    are the trimmed inputs, or their placeholders when blank, and so never
    empty. *)
Theorem preview_is_not_stored {browser : Platform} (form : form_values)
        (this : CertificateModule) (w : World) :
  exists (this' : CertificateModule) (w' : World),
    _renderPreviewFromForm form this w = (Normal this', w')
    /\ certList this' = certList this
    /\ localStorage w' = localStorage w
    /\ console w' = console w
    /\ (canvas this = None -> this' = this /\ w' = w)
    /\ (forall cv, canvas this = Some cv ->
        exists temp : certificate,
          currentPreview this' = Some temp
          /\ canvas this' = Some (drawCertificateToCanvas temp cv)
          /\ name temp = JSString.or_else (JSString.trim (inputName form))
                                          "Nombre del beneficiario"
          /\ title temp = JSString.or_else (JSString.trim (inputTitle form)) "Certificado"
          /\ issuer temp = JSString.or_else (JSString.trim (inputIssuer form)) "Centro"
          /\ note temp = JSString.trim (inputNote form)
          /\ name temp <> EmptyString /\ title temp <> EmptyString
          /\ issuer temp <> EmptyString).
Proof.
  unfold _renderPreviewFromForm.
  destruct (canvas this) as [cv |] eqn:Hcv.
  - assert (Hne : forall a b, JSString.truthy b = true -> JSString.or_else a b <> EmptyString).
    { intros a b Hb Hempty. pose proof (or_else_truthy a b Hb) as Ht.
      now rewrite Hempty in Ht. }
    destruct (JSString.truthy (inputDate form)).
    + unfold bind at 1. unfold ret at 1. unfold bind. rewrite makeCertificate_run.
      do 2 eexists. split; [reflexivity |]. repeat split; try discriminate.
      intros cv' Hcv'. injection Hcv' as <-. eexists.
      cbn [currentPreview canvas name title issuer note].
      rewrite or_else_empty. repeat split; now apply Hne.
    + unfold bind at 1. unfold bind at 1. unfold Date_now_toISOString, ret at 1.
      unfold bind. rewrite makeCertificate_run.
      do 2 eexists. split; [reflexivity |]. repeat split; try discriminate.
      intros cv' Hcv'. injection Hcv' as <-. eexists.
      cbn [currentPreview canvas name title issuer note].
      rewrite or_else_empty. repeat split; now apply Hne.
  - exists this, w. repeat split. intros cv Hcv'. discriminate Hcv'.
Qed.

(** ** The search *)

Lemma trimEnd_cons (c : ascii) (s : string) :
  JSString.trimEnd (String c s)
  = match JSString.trimEnd s with
    | EmptyString =>
        if JSString.is_whitespace c then EmptyString else String c EmptyString
    | t => String c t
    end.
Proof. reflexivity. Qed.

Lemma trimEnd_trimEnd (s : string) :
  JSString.trimEnd (JSString.trimEnd s) = JSString.trimEnd s.
Proof.
  induction s as [| c s IH]; [reflexivity |].
  simpl. destruct (JSString.trimEnd s) as [| d t] eqn:E.
  - destruct (JSString.is_whitespace c) eqn:Hc; [reflexivity |].
    simpl. now rewrite Hc.
  - rewrite trimEnd_cons, IH. reflexivity.
Qed.

Lemma trimStart_head (s : string) :
  match JSString.trimStart s with
  | EmptyString => True
  | String c _ => JSString.is_whitespace c = false
  end.
Proof.
  induction s as [| c s IH]; [exact I |].
  simpl. destruct (JSString.is_whitespace c) eqn:Hc; [exact IH | exact Hc].
Qed.

Lemma trim_trim (s : string) : JSString.trim (JSString.trim s) = JSString.trim s.
Proof.
  unfold JSString.trim.
  replace (JSString.trimStart (JSString.trimEnd (JSString.trimStart s)))
    with (JSString.trimEnd (JSString.trimStart s)); [apply trimEnd_trimEnd |].
  pose proof (trimStart_head s) as Hhead.
  destruct (JSString.trimStart s) as [| c t]; [reflexivity |].
  simpl in Hhead. rewrite trimEnd_cons.
  destruct (JSString.trimEnd t); rewrite ?Hhead; simpl; now rewrite Hhead.
Qed.

Lemma case_char_facts (c : ascii) :
  JSString.is_whitespace (JSString.upper_char c) = JSString.is_whitespace c
  /\ JSString.is_whitespace (JSString.lower_char c) = JSString.is_whitespace c
  /\ JSString.upper_char (JSString.upper_char c) = JSString.upper_char c
  /\ JSString.upper_char (JSString.lower_char c) = JSString.upper_char c.
Proof. destruct c as [[] [] [] [] [] [] [] []]; vm_compute; repeat split. Qed.

Lemma trimStart_map_chars (f : ascii -> ascii) (s : string) :
  (forall c, JSString.is_whitespace (f c) = JSString.is_whitespace c) ->
  JSString.trimStart (JSString.map_chars f s) = JSString.map_chars f (JSString.trimStart s).
Proof.
  intros Hf. induction s as [| c s IH]; [reflexivity |].
  simpl. rewrite Hf. now destruct (JSString.is_whitespace c).
Qed.

Lemma trimEnd_map_chars (f : ascii -> ascii) (s : string) :
  (forall c, JSString.is_whitespace (f c) = JSString.is_whitespace c) ->
  JSString.trimEnd (JSString.map_chars f s) = JSString.map_chars f (JSString.trimEnd s).
Proof.
  intros Hf. induction s as [| c s IH]; [reflexivity |].
  simpl. rewrite IH, Hf.
  destruct (JSString.trimEnd s); [now destruct (JSString.is_whitespace c) | reflexivity].
Qed.

Lemma trim_map_chars (f : ascii -> ascii) (s : string) :
  (forall c, JSString.is_whitespace (f c) = JSString.is_whitespace c) ->
  JSString.trim (JSString.map_chars f s) = JSString.map_chars f (JSString.trim s).
Proof.
  intros Hf. unfold JSString.trim.
  now rewrite trimStart_map_chars, trimEnd_map_chars.
Qed.

Lemma map_chars_ext (f g : ascii -> ascii) (s : string) :
  (forall c, f c = g c) -> JSString.map_chars f s = JSString.map_chars g s.
Proof.
  intros H. induction s as [| c s IH]; [reflexivity |]. simpl. now rewrite H, IH.
Qed.

Lemma search_query_normal (value : string) :
  search_query (JSString.trim value) = search_query value
  /\ search_query (JSString.toUpperCase value) = search_query value
  /\ search_query (JSString.toLowerCase value) = search_query value
  /\ search_query (search_query value) = search_query value.
Proof.
  unfold search_query. rewrite !or_else_empty.
  unfold JSString.toUpperCase, JSString.toLowerCase.
  split; [now rewrite trim_trim |].
  split; [| split].
  - rewrite trim_map_chars by apply case_char_facts.
    rewrite map_chars_map_chars. apply map_chars_ext. apply case_char_facts.
  - rewrite trim_map_chars by apply case_char_facts.
    rewrite map_chars_map_chars. apply map_chars_ext. apply case_char_facts.
  - rewrite trim_map_chars by apply case_char_facts.
    rewrite trim_trim, map_chars_map_chars. apply map_chars_ext. apply case_char_facts.
Qed.

Lemma btnSearch_click_query (value : string) (this : CertificateModule) :
  btnSearch_click value this
  = if negb (JSString.truthy (search_query value)) then EnterCode
    else match List.find (fun c => String.eqb (verificationCode c) (search_query value))
                         (certList this) with
         | Some found => ValidCertificate found
         | None => CodeNotFound
         end.
Proof. reflexivity. Qed.

Lemma find_some_iff {A : Type} (p : A -> bool) (l : list A) (x : A) :
  List.find p l = Some x
  <-> exists before after,
        l = (before ++ x :: after)%list /\ p x = true
        /\ forall a, In a before -> p a = false.
Proof.
  induction l as [| a l IH].
  - split; [discriminate |]. intros (before & after & H & _). now destruct before.
  - simpl. destruct (p a) eqn:Ha.
    + split.
      * intros H. injection H as <-. exists [], l. repeat split; [exact Ha |].
        intros a0 [].
      * intros ([| b before] & after & Hl & Hx & Hbefore).
        -- now injection Hl as ->.
        -- injection Hl as <- _. rewrite (Hbefore a (or_introl eq_refl)) in Ha.
           discriminate Ha.
    + rewrite IH. split.
      * intros (before & after & -> & Hx & Hbefore).
        exists (a :: before), after. repeat split; [exact Hx |].
        intros a0 [<- | Ha0]; [exact Ha | now apply Hbefore].
      * intros ([| b before] & after & Hl & Hx & Hbefore).
        -- injection Hl as -> _. congruence.
        -- injection Hl as _ ->. exists before, after. repeat split; [exact Hx |].
           intros a0 Ha0. apply Hbefore. now right.
Qed.

(** X17.  What the search shows, for every input and every list, with
    [q] the input trimmed and put in upper case: the request to enter a
    code exactly when [q] is empty; a record exactly when [q] is not empty
    and that record is the first of the list whose code is [q]; not found
    exactly when [q] is not empty and no record has the code [q]. *)
Theorem search_result_meaning (value : string) (this : CertificateModule) :
  let q := JSString.toUpperCase (JSString.trim value) in
  (btnSearch_click value this = EnterCode <-> q = EmptyString)
  /\ (forall found,
        btnSearch_click value this = ValidCertificate found
        <-> q <> EmptyString
            /\ exists before after,
                 certList this = (before ++ found :: after)%list
                 /\ verificationCode found = q
                 /\ forall c, In c before -> verificationCode c <> q)
  /\ (btnSearch_click value this = CodeNotFound
      <-> q <> EmptyString /\ forall c, In c (certList this) -> verificationCode c <> q).
Proof.
  intros q. rewrite btnSearch_click_query.
  assert (Hq : search_query value = q)
    by (unfold search_query; now rewrite or_else_empty).
  rewrite Hq. clearbody q. clear Hq.
  destruct q as [| a q]; cbn [JSString.truthy negb].
  - split; [tauto |]. split; [intros found |]; split; try discriminate; tauto.
  - set (code := String a q).
    assert (Hne : code <> EmptyString) by discriminate.
    split; [| split].
    + split; [| contradiction]. destruct (List.find _ _); discriminate.
    + intros found. destruct (List.find _ _) as [f |] eqn:Hfind.
      * split.
        -- intros H. injection H as ->. split; [exact Hne |].
           apply find_some_iff in Hfind as (before & after & Hl & Hx & Hb).
           exists before, after. split; [exact Hl |].
           split; [now apply String.eqb_eq |].
           intros c Hc. apply String.eqb_neq. now apply Hb.
        -- intros (_ & before & after & Hl & Hx & Hb). f_equal.
           assert (Hf : List.find (fun c => String.eqb (verificationCode c) code)
                                  (certList this) = Some found).
           { apply find_some_iff. exists before, after. split; [exact Hl |].
             split; [now apply String.eqb_eq |].
             intros c Hc. apply String.eqb_neq. now apply Hb. }
           congruence.
      * split; [discriminate |]. intros (_ & before & after & Hl & Hx & Hb). exfalso.
        rewrite find_none_iff in Hfind.
        assert (Hin : In found (certList this))
          by (rewrite Hl; apply in_or_app; right; now left).
        specialize (Hfind found Hin). apply String.eqb_neq in Hfind. congruence.
    + destruct (List.find _ _) as [f |] eqn:Hfind.
      * split; [discriminate |]. intros [_ Hnone]. exfalso.
        apply List.find_some in Hfind as [Hin Hf]. apply String.eqb_eq in Hf.
        exact (Hnone f Hin Hf).
      * split; [| reflexivity]. intros _. split; [exact Hne |].
        rewrite find_none_iff in Hfind. intros c Hc.
        apply String.eqb_neq. now apply Hfind.
Qed.

(** X18.  The search sees its input trimmed and in upper case only:
    trimming the input changes nothing in what the search shows, and for
    an input within ASCII, the range the case mappings are written out
    for, neither does putting it in upper or in lower case. *)
Theorem search_normalises_input (value : string) (this : CertificateModule) :
  btnSearch_click (JSString.trim value) this = btnSearch_click value this
  /\ (JSString.all_chars is_ascii value = true ->
      btnSearch_click (JSString.toUpperCase value) this = btnSearch_click value this
      /\ btnSearch_click (JSString.toLowerCase value) this = btnSearch_click value this).
Proof.
  rewrite !btnSearch_click_query.
  destruct (search_query_normal value) as (-> & -> & -> & _). repeat split.
Qed.

Lemma search_normalises_input_witness :
  JSString.all_chars is_ascii " 27u2 " = true
  /\ btnSearch_click (JSString.toUpperCase " 27u2 ") (mkModule [luis; ana] None None)
     = btnSearch_click " 27u2 " (mkModule [luis; ana] None None).
Proof.
  assert (Hascii : JSString.all_chars is_ascii " 27u2 " = true) by reflexivity.
  split; [exact Hascii |].
  exact (proj1 (proj2 (search_normalises_input " 27u2 " (mkModule [luis; ana] None None))
                      Hascii)).
Defined.

(** X19.  A record the search shows has a code that is not empty, is in
    upper case and has no white space around it: a record whose code is
    empty, holds a lower-case letter or starts or ends with a space is
    never shown, whatever is typed. *)
Theorem search_shows_normal_codes (value : string) (this : CertificateModule)
        (found : certificate) :
  btnSearch_click value this = ValidCertificate found ->
  In found (certList this)
  /\ verificationCode found <> EmptyString
  /\ JSString.toUpperCase (JSString.trim (verificationCode found)) = verificationCode found.
Proof.
  rewrite btnSearch_click_query. intros H.
  destruct (JSString.truthy (search_query value)) eqn:Hq; cbn [negb] in H;
    [| discriminate H].
  destruct (List.find _ _) as [f |] eqn:Hfind; [| discriminate H].
  injection H as ->. apply List.find_some in Hfind as [Hin Hcode].
  apply String.eqb_eq in Hcode. split; [exact Hin |]. rewrite Hcode. split.
  - intros Hempty. rewrite Hempty in Hq. discriminate Hq.
  - destruct (search_query_normal value) as (_ & _ & _ & Hidem).
    unfold search_query at 1 in Hidem. now rewrite or_else_empty in Hidem.
Qed.

Lemma search_shows_normal_codes_witness :
  btnSearch_click " 27u2 " (mkModule [luis; ana] None None) = ValidCertificate ana
  /\ In ana (certList (mkModule [luis; ana] None None))
  /\ verificationCode ana <> EmptyString.
Proof.
  assert (Hfound : btnSearch_click " 27u2 " (mkModule [luis; ana] None None)
                   = ValidCertificate ana) by reflexivity.
  split; [exact Hfound |].
  destruct (search_shows_normal_codes " 27u2 " (mkModule [luis; ana] None None) ana Hfound)
    as (Hin & Hne & _).
  split; [exact Hin | exact Hne].
Defined.

(** ** The drawing *)

(** X20.  The drawing shows six fields and nothing else: two records
    with the same title, issuer, name, note, date and verification code
    give the same canvas (the id and the creation time are not drawn), and
    the canvas drawn on makes no difference, it is reset to 1200 by 675. *)
Theorem drawing_shows_six_fields {browser : Platform} (cert cert' : certificate)
        (cv cv' : Canvas) :
  title cert = title cert' -> issuer cert = issuer cert' -> name cert = name cert' ->
  note cert = note cert' -> date cert = date cert' ->
  verificationCode cert = verificationCode cert' ->
  drawCertificateToCanvas cert cv = drawCertificateToCanvas cert' cv'
  /\ width (drawCertificateToCanvas cert cv) = 1200%Q
  /\ height (drawCertificateToCanvas cert cv) = 675%Q.
Proof.
  intros Ht Hi Hn Hno Hd Hc. split; [| split; reflexivity].
  unfold drawCertificateToCanvas. now rewrite Ht, Hi, Hn, Hno, Hd, Hc.
Qed.

Lemma drawing_shows_six_fields_witness :
  id ana <> id ana_reissued
  /\ drawCertificateToCanvas ana new_canvas
     = drawCertificateToCanvas ana_reissued (mkCanvas 1200 675 reset_context).
Proof.
  split; [discriminate |].
  exact (proj1 (drawing_shows_six_fields ana ana_reissued new_canvas
                                         (mkCanvas 1200 675 reset_context)
                                         eq_refl eq_refl eq_refl eq_refl eq_refl eq_refl)).
Defined.

Lemma op_text_mockQR (x y size : Q) : omap op_text (mockQR_commands x y size) = [].
Proof.
  unfold mockQR_commands. rewrite omap_app. simpl.
  induction checkerboard_cells as [| ij l IH]; [reflexivity | exact IH].
Qed.

(** The commands of a drawing, first to last: the page and the band, the
    title, the issuer, the label and the name, the lines of the note, the
    footer, and the box. *)
Lemma drawCertificateToCanvas_drawn {browser : Platform} (cert : certificate) (cv : Canvas) :
  drawn (context (drawCertificateToCanvas cert cv))
  = ([ FillRect (Color "#ffffff") 0 0 1200 675;
       FillRect (LinearGradient 0 0 1200 0 [(0, "#2b46d8"); (1, "#3b82f6")]) 0 0 1200 110;
       FillText (Color "#06132a") "42px Inter, Arial" "left" (title cert) 60 180;
       FillText (Color "#475569") "16px Inter, Arial" "left"
                ("Emitido por: " +:+ issuer cert) 60 210;
       FillText (Color "#0b1220") "20px Inter, Arial" "center" "Otorgado a" (1200 / 2) 320;
       FillText (Color "#0b1220") "48px Inter, Arial" "center" (name cert) (1200 / 2) 380 ]
     ++ place_lines (mkDrawState (Color "#334155") "18px Inter, Arial" "center")
          (1200 / 2 - 440 + 880 / 2) 440 28
          (map drawn_line
               (wrap_reference "18px Inter, Arial" 880 []
                               (JSString.split_space (note cert))))
     ++ [ FillText (Color "#475569") "16px Inter, Arial" "left"
                   ("Fecha: " +:+ formatDate (date cert)) 60 (675 - 70);
          FillText (Color "#475569") "16px Inter, Arial" "right"
                   ("Código de verificación: " +:+ verificationCode cert)
                   (1200 - 60) (675 - 70) ]
     ++ mockQR_commands (1200 - 220) (675 - 170) 150)%Q%list.
Proof.
  unfold drawCertificateToCanvas. cbn [context].
  match goal with
  | |- context [drawMockQR ?c ?t ?x ?y ?s] =>
      set (C := c); rewrite (drawMockQR_commands C t x y s)
  end.
  cbn [drawn]. subst C.
  match goal with
  | |- context [wrapText ?c ?t ?x ?y ?m ?l] =>
      set (C := c);
      assert (HC : C = mkContext2D
                         (mkDrawState (Color "#334155") "18px Inter, Arial" "center") []
                         [ FillRect (Color "#ffffff") 0 0 1200 675;
                           FillRect (LinearGradient 0 0 1200 0
                                       [(0, "#2b46d8"); (1, "#3b82f6")]) 0 0 1200 110;
                           FillText (Color "#06132a") "42px Inter, Arial" "left"
                                    (title cert) 60 180;
                           FillText (Color "#475569") "16px Inter, Arial" "left"
                                    ("Emitido por: " +:+ issuer cert) 60 210;
                           FillText (Color "#0b1220") "20px Inter, Arial" "center"
                                    "Otorgado a" (1200 / 2) 320;
                           FillText (Color "#0b1220") "48px Inter, Arial" "center"
                                    (name cert) (1200 / 2) 380 ]%Q)
        by reflexivity;
      rewrite (wrapText_reference x m l C t y), HC
  end.
  cbn [fillText emit set_textAlign set_font set_fillStyle state saved drawn
       fillStyle font textAlign set_width set_height width height].
  rewrite <- !app_assoc. cbn [app]. reflexivity.
Qed.

(** X21.  The texts of a certificate, top to bottom: the title, the
    issuer after its label, the label of the recipient and the name, the
    lines of the note, the date and the verification code after their
    labels.  The box writes no text, and the id and the creation time of
    the record appear nowhere. *)
Theorem drawing_texts {browser : Platform} (cert : certificate) (cv : Canvas) :
  omap op_text (drawn (context (drawCertificateToCanvas cert cv)))
  = ([ title cert; "Emitido por: " +:+ issuer cert; "Otorgado a"; name cert ]
     ++ wrapText_lines note_context (note cert) (1200 / 2 - 440) 440 880 28
     ++ [ "Fecha: " +:+ formatDate (date cert);
          "Código de verificación: " +:+ verificationCode cert ])%list.
Proof.
  rewrite drawCertificateToCanvas_drawn, !omap_app, op_text_mockQR, op_text_place_lines.
  rewrite wrapText_lines_reference, app_nil_r. reflexivity.
Qed.

Lemma line_of_words_concat (a b : list string) :
  line_of_words (a ++ b) = line_of_words a +:+ line_of_words b.
Proof.
  induction a as [| w a IH]; simpl.
  - now rewrite append_empty_l.
  - now rewrite IH, !append_assoc.
Qed.

Lemma split_space_single (s : string) :
  JSString.all_chars (fun c => negb (c =? " ")%char) s = true ->
  JSString.split_space s = [s].
Proof.
  induction s as [| c s IH]; [reflexivity |]. cbn [JSString.all_chars JSString.split_space].
  intros H. apply andb_true_iff in H as [Hc Hs]. apply negb_true_iff in Hc.
  rewrite Hc, (IH Hs). reflexivity.
Qed.

Section WrapMore.
Context {browser : Platform}.
Variables (fnt : css_font) (maxWidth : Q).

Lemma wrap_reference_one_line {laws : MeasureLaws browser} (words cur : list string) :
  (measureText_width fnt (line_of_words (cur ++ words)) <= maxWidth)%Q ->
  wrap_reference fnt maxWidth cur words = [(cur ++ words)%list].
Proof.
  revert cur. induction words as [| w rest IH]; intros cur H.
  - now rewrite app_nil_r.
  - cbn [wrap_reference].
    replace (cur ++ w :: rest)%list with ((cur ++ [w]) ++ rest)%list in *
      by now rewrite <- app_assoc.
    assert (Hw : would_exceed fnt maxWidth cur w = false).
    { unfold would_exceed. apply Qgt_bool_false.
      rewrite line_of_words_concat in H.
      eapply Qle_trans; [apply measure_prefix_le | exact H]. }
    rewrite Hw. cbn [andb]. apply IH. exact H.
Qed.

Lemma wrap_reference_count (words cur : list string) :
  cur <> [] \/ words <> [] ->
  (length (wrap_reference fnt maxWidth cur words)
   <= (if has_word cur then 1 else 0) + length words)%nat.
Proof.
  revert cur. induction words as [| w rest IH]; intros cur Hne.
  - destruct Hne as [Hcur | Hw]; [| congruence].
    destruct cur; [congruence |]. cbn [wrap_reference length has_word]. lia.
  - cbn [wrap_reference].
    destruct (would_exceed fnt maxWidth cur w && has_word cur) eqn:Hb.
    + apply andb_true_iff in Hb as [_ Hc]. rewrite Hc.
      cbn [length]. 
      assert (H1 : [w] <> []) by discriminate.
      pose proof (IH [w] (or_introl H1)) as IH1.
      cbn [has_word] in IH1. lia.
    + assert (Hw : (cur ++ [w])%list <> []) by (destruct cur; discriminate).
      pose proof (IH (cur ++ [w])%list (or_introl Hw)) as IH1.
      apply has_word_true in Hw. rewrite Hw in IH1.
      cbn [length]. destruct (has_word cur); lia.
Qed.

End WrapMore.

(** ** The word wrap *)

(** X22.  A note that fits is drawn whole: when the text followed by one
    space is not wider than [maxWidth], [wrapText] draws one line, the
    text trimmed. *)
Theorem wrapText_note_that_fits {browser : Platform} {laws : MeasureLaws browser}
        (ctx : Context2D) (text : string) (x y maxWidth lineHeight : Q) :
  (measureText_width (font (state ctx)) (text +:+ " ") <= maxWidth)%Q ->
  wrapText_lines ctx text x y maxWidth lineHeight = [JSString.trim text].
Proof.
  intros Hfit. rewrite wrapText_lines_reference.
  rewrite wrap_reference_one_line.
  - cbn [app map]. unfold drawn_line. rewrite line_of_split.
    now rewrite trim_append_space.
  - exact laws.
  - cbn [app]. now rewrite line_of_split.
Qed.

Lemma wrapText_note_that_fits_witness :
  (measureText_width (font (state note_context)) (note ana +:+ " ") <= 880)%Q
  /\ wrapText_lines note_context (note ana) 160 440 880 28 = [note ana].
Proof.
  assert (Hfit : (measureText_width (font (state note_context)) (note ana +:+ " ")
                  <= 880)%Q) by (vm_compute; discriminate).
  split; [exact Hfit |].
  exact (wrapText_note_that_fits note_context (note ana) 160 440 880 28 Hfit).
Defined.

(** X23.  A word is never cut: a text without a space is drawn on one
    line, whatever its width and whatever [maxWidth]. *)
Theorem wrapText_never_cuts_a_word {browser : Platform}
        (ctx : Context2D) (text : string) (x y maxWidth lineHeight : Q) :
  JSString.all_chars (fun c => negb (c =? " ")%char) text = true ->
  wrapText_lines ctx text x y maxWidth lineHeight = [JSString.trim text].
Proof.
  intros Hword. rewrite wrapText_lines_reference, (split_space_single _ Hword).
  cbn [wrap_reference has_word app map]. rewrite andb_false_r.
  cbn [map]. unfold drawn_line. cbn [line_of_words].
  now rewrite append_empty_r, trim_append_space.
Qed.

Lemma wrapText_never_cuts_a_word_witness :
  JSString.all_chars (fun c => negb (c =? " ")%char) long_word = true
  /\ wrapText_lines note_context long_word 160 440 880 28 = [long_word].
Proof.
  assert (Hword : JSString.all_chars (fun c => negb (c =? " ")%char) long_word = true)
    by (vm_compute; reflexivity).
  split; [exact Hword |].
  exact (wrapText_never_cuts_a_word note_context long_word 160 440 880 28 Hword).
Defined.

(** X24.  What [wrapText] does to a context: the fill style, the font and
    the stack of saved states stay, the alignment becomes [center] and
    stays so after the call; the commands drawn before stay, and the call
    adds lines of text only, at least one (also for the empty text) and at
    most one for every piece of [text.split(' ')], one [lineHeight] below
    the other from [y], all centred on the middle of the column. *)
Theorem wrapText_frame {browser : Platform}
        (ctx : Context2D) (text : string) (x y maxWidth lineHeight : Q) :
  let after := wrapText ctx text x y maxWidth lineHeight in
  state after = mkDrawState (fillStyle (state ctx)) (font (state ctx)) "center"
  /\ saved after = saved ctx
  /\ exists lines : list string,
       drawn after
       = (drawn ctx
          ++ place_lines (state after) (x + maxWidth / 2)%Q y lineHeight lines)%list
       /\ (1 <= length lines <= length (JSString.split_space text))%nat.
Proof.
  cbv zeta. rewrite (wrapText_reference x maxWidth lineHeight ctx text y).
  cbn [state saved drawn set_textAlign]. split; [reflexivity | split; [reflexivity |]].
  eexists. split; [reflexivity |]. rewrite length_map. split.
  - apply wrap_reference_length.
  - pose proof (wrap_reference_count (font (state ctx)) maxWidth
                  (JSString.split_space text) []
                  (or_intror (split_space_nonempty text))) as H.
    exact H.
Qed.

(** ** The box *)

Lemma checkerboard_cells_bound (ij : nat * nat) :
  In ij checkerboard_cells -> (fst ij <= 5)%nat /\ (snd ij <= 5)%nat.
Proof.
  unfold checkerboard_cells. destruct ij as [i j]. rewrite filter_In, in_prod_iff, !in_seq.
  cbn [fst snd]. lia.
Qed.

Lemma cell_offset_bound (k : nat) (step : Q) :
  (k <= 5)%nat -> (0 <= step)%Q ->
  (0 <= inject_Z (Z.of_nat k) * step /\ inject_Z (Z.of_nat k) * step <= 5 * step)%Q.
Proof.
  intros Hk Hstep.
  assert (H0 : (0 <= inject_Z (Z.of_nat k))%Q).
  { change 0%Q with (inject_Z 0). rewrite <- Zle_Qle. lia. }
  assert (H5 : (inject_Z (Z.of_nat k) <= 5)%Q).
  { change 5%Q with (inject_Z 5). rewrite <- Zle_Qle. lia. }
  split.
  - now apply Qmult_le_0_compat.
  - now apply Qmult_le_compat_r.
Qed.

Lemma mockQR_step_bound (size : Q) :
  (36 <= size)%Q ->
  (2 <= Math_floor ((size - 24) / 6) /\ 6 * Math_floor ((size - 24) / 6) <= size - 24)%Q.
Proof.
  intros Hsize. unfold Math_floor. split.
  - change 2%Q with (inject_Z 2). rewrite <- Zle_Qle.
    change 2%Z with (Qfloor (inject_Z 2)) at 1. apply Qfloor_resp_le.
    change (inject_Z 2) with 2%Q. apply Qle_shift_div_l; lra.
  - pose proof (Qfloor_le ((size - 24) / 6)) as H.
    assert (H6 : ((size - 24) / 6 * 6 == size - 24)%Q) by (field; discriminate).
    set (d := ((size - 24) / 6)%Q) in *. lra.
Qed.

(** X25.  The box is a closed drawing: whatever its size, [drawMockQR]
    gives the context back with the drawing state and the stack of saved
    states it found, and adds twenty squares, the dark one, the white
    inset twelve pixels inside it, and eighteen dark cells; for a box of
    36 pixels or more every cell lies within the inset. *)
Theorem mockQR_cells_inside_box {browser : Platform} (ctx : Context2D) (text : string)
        (x y size : Q) :
  let after := drawMockQR ctx text x y size in
  state after = state ctx
  /\ saved after = saved ctx
  /\ exists cells : list draw_op,
       drawn after
       = (drawn ctx
          ++ [ FillRect (Color "#0b1220") x y size size;
               FillRect (Color "#fff") (x + 12) (y + 12) (size - 24) (size - 24) ]%Q
          ++ cells)%list
       /\ length cells = 18%nat
       /\ Forall (fun op => exists cx cy side : Q,
                              op = FillRect (Color "#0b1220") cx cy side side) cells
       /\ ((36 <= size)%Q ->
           Forall (fun op =>
                     exists cx cy side : Q,
                       op = FillRect (Color "#0b1220") cx cy side side
                       /\ (0 <= side
                           /\ x + 12 <= cx /\ cx + side <= x + 12 + (size - 24)
                           /\ y + 12 <= cy /\ cy + side <= y + 12 + (size - 24))%Q)
                  cells).
Proof.
  cbv zeta. rewrite drawMockQR_commands. cbn [state saved drawn].
  split; [reflexivity | split; [reflexivity |]].
  unfold mockQR_commands. eexists. split; [reflexivity |].
  split; [now rewrite length_map |].
  split.
  { apply List.Forall_forall. intros op Hop.
    apply in_map_iff in Hop as (ij & <- & _).
    unfold cell_command. now eexists _, _, _. }
  intros Hsize.
  destruct (mockQR_step_bound size Hsize) as [Hstep Hsix].
  set (step := Math_floor ((size - 24) / 6)) in *.
  apply List.Forall_forall. intros op Hop.
  apply in_map_iff in Hop as (ij & <- & Hij).
  apply checkerboard_cells_bound in Hij as [Hi Hj].
  assert (H0 : (0 <= step)%Q) by lra.
  destruct (cell_offset_bound (fst ij) step Hi H0) as [Hi0 Hi5].
  destruct (cell_offset_bound (snd ij) step Hj H0) as [Hj0 Hj5].
  unfold cell_command. eexists _, _, _. split; [reflexivity |].
  set (p := (inject_Z (Z.of_nat (fst ij)) * step)%Q) in *.
  set (q := (inject_Z (Z.of_nat (snd ij)) * step)%Q) in *.
  repeat split; lra.
Qed.

Lemma mockQR_cells_inside_box_witness :
  (36 <= 150)%Q
  /\ exists cells : list draw_op,
       emitted_by note_context (drawMockQR note_context (verificationCode ana) 980 505 150)
       = ([ FillRect (Color "#0b1220") 980 505 150 150;
            FillRect (Color "#fff") (980 + 12) (505 + 12) (150 - 24) (150 - 24) ]%Q
          ++ cells)%list
       /\ Forall (fun op =>
                    exists cx cy side : Q,
                      op = FillRect (Color "#0b1220") cx cy side side
                      /\ (0 <= side
                          /\ 980 + 12 <= cx /\ cx + side <= 980 + 12 + (150 - 24)
                          /\ 505 + 12 <= cy /\ cy + side <= 505 + 12 + (150 - 24))%Q)
                 cells.
Proof.
  assert (Hsize : (36 <= 150)%Q) by (vm_compute; discriminate).
  split; [exact Hsize |].
  destruct (mockQR_cells_inside_box note_context (verificationCode ana) 980 505 150)
    as (_ & _ & cells & Hdrawn & _ & _ & Hinside).
  exists cells. split; [| exact (Hinside Hsize)].
  unfold emitted_by. rewrite Hdrawn. reflexivity.
Defined.

(** ** Tokens and escaping *)

Lemma alnum_not_special (c : ascii) :
  JSString.is_lower_alnum c || JSString.is_upper_alnum c = true ->
  negb (is_html_special c) = true.
Proof.
  destruct c as [[] [] [] [] [] [] [] []]; vm_compute; intros H;
    first [discriminate H | reflexivity].
Qed.

Lemma escapeHtml_plain (str : string) :
  JSString.all_chars (fun c => negb (is_html_special c)) str = true ->
  escapeHtml str = str.
Proof.
  induction str as [| c rest IH]; [reflexivity |].
  cbn [JSString.all_chars escapeHtml]. unfold is_html_special at 1.
  intros H. apply andb_true_iff in H as [Hc Hrest].
  destruct (html_entity c); [discriminate Hc |]. now rewrite (IH Hrest).
Qed.

(** X26.  The tokens of a new record need no escaping: [makeCertificate]
    always returns, and the id and the verification code of its record
    hold none of the five characters [escapeHtml] replaces, so that
    escaping them changes nothing. *)
Theorem generated_tokens_need_no_escape {browser : Platform} (p : payload) (w : World) :
  exists (c : certificate) (w' : World),
    makeCertificate p w = (Normal c, w')
    /\ escapeHtml (id c) = id c
    /\ escapeHtml (verificationCode c) = verificationCode c.
Proof.
  rewrite makeCertificate_run. eexists _, _. split; [reflexivity |].
  cbn [id verificationCode]. split; apply escapeHtml_plain.
  - apply (all_chars_impl JSString.is_lower_alnum); [| apply digits_string_lower_alnum].
    intros c Hc. apply alnum_not_special. now rewrite Hc.
  - apply (all_chars_impl JSString.is_upper_alnum); [| apply uid_upper_alnum].
    intros c Hc. apply alnum_not_special. rewrite Hc. apply orb_true_r.
Qed.
